(** * Hass-Parcel: the polling coordinators and the shipment sensors

    A shallow embedding of the two sensor platforms of the repository,

    - [Legacy]:    [sensor.py]  ([ParcelDataCoordinator], [ParcelSensor]),
    - [Component]: [custom_components/hass-parcel/sensor.py]
                   ([ParcelApiClient], [ParcelDataUpdateCoordinator],
                   [ParcelDeliverySensor]),

    over a small model of the Python values a decoded JSON body is made of.
    An HTTP exchange is data (an [exchange]): the status and decoded body of
    the response, or the network failure that replaced it.  Exceptions are
    values of [exn], and code that can raise returns a [result]. *)

From Stdlib Require Import ZArith Ascii.
From stdpp Require Import gmap strings list fin_maps pretty.

Set Warnings "-register-all".

Local Open Scope Z_scope.

(** ** Python values *)

(** What [json.loads] produces.  Numbers are the integers (a JSON number with
    a fraction is outside this model); a [dict] has string keys. *)
Inductive value : Type :=
  | VNone
  | VBool (b : bool)
  | VInt (z : Z)
  | VStr (s : string)
  | VList (l : list value)
  | VDict (m : gmap string value).

(** A shipment record is a [dict]. *)
Abbreviation record := (gmap string value).

(** ** Exceptions and results *)

Inductive exn : Type :=
  | ClientError                  (* aiohttp.ClientError and its subclasses *)
  | TimeoutError                 (* asyncio.TimeoutError *)
  | ValueError                   (* json.JSONDecodeError, UnicodeDecodeError *)
  | KeyError
  | IndexError
  | TypeError
  | AttributeError
  | PlainException (msg : string)  (* raise Exception(msg) *)
  | UpdateFailed (err : exn).      (* the host's update failure signal *)

Inductive result (A : Type) : Type :=
  | Ok (a : A)
  | Raise (e : exn).
Arguments Ok {A} a.
Arguments Raise {A} e.

(** Sequencing, written [x ← r; k]: the first exception raised ends the
    computation. *)
Global Instance result_ret : MRet result := λ A a, Ok a.
Global Instance result_bind : MBind result := λ A B k r,
  match r with
  | Ok a => k a
  | Raise e => Raise e
  end.

(** [try: r  except (aiohttp.ClientError, asyncio.TimeoutError): h] *)
Definition except_network {A} (r : result A) (h : A) : result A :=
  match r with
  | Raise ClientError | Raise TimeoutError => Ok h
  | _ => r
  end.

(** ** Strings *)

(** [str.lower] on a string of bytes: the letters A-Z become a-z and every
    other byte stays.  (On text beyond ASCII Python also lowers the other
    cased letters; none of them yields a letter of the patterns matched
    below.) *)
Definition lower_ascii (c : ascii) : ascii :=
  let n := N_of_ascii c in
  if ((65 <=? n) && (n <=? 90))%N then ascii_of_N (n + 32) else c.

Fixpoint lower (s : string) : string :=
  match s with
  | EmptyString => EmptyString
  | String c s' => String (lower_ascii c) (lower s')
  end.

(** [p in s] on strings: [p] occurs in [s] as a contiguous run. *)
Fixpoint contains (p s : string) : bool :=
  String.prefix p s ||
  match s with
  | EmptyString => false
  | String _ s' => contains p s'
  end.

(** ** Builtins on values *)

Section Builtins.

(** [str] of a list or of a dict is Python's [repr]; its text plays no part
    below and is left to the parameter. *)
Context (repr_container : value → string).

(** [str(v)], also what an f-string field [{v}] prints. *)
Definition py_str (v : value) : string :=
  match v with
  | VNone => "None"
  | VBool true => "True"
  | VBool false => "False"
  | VInt z => pretty z
  | VStr s => s
  | VList _ | VDict _ => repr_container v
  end.

End Builtins.

(** [v.get(k, d)]: only a dict has the method. *)
Definition py_get (v : value) (k : string) (d : value) : result value :=
  match v with
  | VDict m => Ok (default d (m !! k))
  | _ => Raise AttributeError
  end.

(** [for x in v]: the elements a loop over [v] visits. *)
Definition py_iter (v : value) : result (list value) :=
  match v with
  | VList l => Ok l
  | VDict m => Ok (VStr <$> (map_to_list m).*1)
  | VStr s => Ok ((λ c, VStr (String c EmptyString)) <$> String.list_ascii_of_string s)
  | _ => Raise TypeError
  end.

(** [len(v)] *)
Definition py_len (v : value) : result nat :=
  match v with
  | VList l => Ok (length l)
  | VDict m => Ok (size m)
  | VStr s => Ok (String.length s)
  | _ => Raise TypeError
  end.

(** [v[i]] with an index [i >= 0]. *)
Definition py_index (v : value) (i : nat) : result value :=
  match v with
  | VList l => match l !! i with Some x => Ok x | None => Raise IndexError end
  | VDict _ => Raise KeyError
  | VStr s => match String.get i s with
              | Some c => Ok (VStr (String c EmptyString))
              | None => Raise IndexError
              end
  | _ => Raise TypeError
  end.

(** [v.lower()]: a string method. *)
Definition py_lower (v : value) : result string :=
  match v with
  | VStr s => Ok (lower s)
  | _ => Raise AttributeError
  end.

(** ** The HTTP exchange *)

Inductive network_failure : Type :=
  | ConnectionFailed     (* raises aiohttp.ClientError *)
  | TimedOut.            (* raises asyncio.TimeoutError *)

Definition exn_of (f : network_failure) : exn :=
  match f with
  | ConnectionFailed => ClientError
  | TimedOut => TimeoutError
  end.

(** What [session.get(...)] gives: a response with its [status] and with what
    awaiting its body evaluates to, or a failure below HTTP.  The code reads
    the body of a response once: with [await resp.json()] when the status is
    200, and, in the legacy refresh, with [await resp.text()] (for the log
    line) when it is not; [body] is the outcome of that read. *)
Inductive exchange : Type :=
  | Response (status : Z) (body : result value)
  | Failed (f : network_failure).

(** * The legacy platform: [sensor.py] *)

Module Legacy.

(** [DEFAULT_SCAN_INTERVAL = timedelta(minutes=30)], in seconds. *)
Definition DEFAULT_SCAN_INTERVAL : Z := 30 * 60.
Definition DEFAULT_NAME : string := "Parcel".

(** [ParcelDataCoordinator]: the dataset [self.data], a dict from
    [str(id)] to the shipment, and the time of the last call the throttle
    of [async_refresh] let through. *)
Record coordinator : Type := Coordinator {
  data : gmap string record;
  last_call : option Z
}.

(** [ParcelDataCoordinator.__init__]: [self.data = {}]. *)
Definition init : coordinator := {| data := ∅; last_call := None |}.

(** Modelled from the spec: the host's [Throttle] decorator, which is not
    part of the repository.  It is "a minimum-interval gate preventing
    redundant fetches": a call is dropped (it returns [None] and does
    nothing) unless the method never ran or more than the interval has
    passed since it last ran. *)
Definition throttled (last : option Z) (now : Z) : bool :=
  match last with
  | None => false
  | Some t => negb (DEFAULT_SCAN_INTERVAL <? now - t)
  end.

Section WithRepr.

Context (repr_container : value → string).

(** [{str(shipment["id"]): shipment for shipment in items}], the entries
    being added to [acc] from left to right.  [shipment["id"]] raises
    [TypeError] unless the shipment is a dict and [KeyError] when the
    dict has no id. *)
Fixpoint by_id (items : list value) (acc : gmap string record)
  : result (gmap string record) :=
  match items with
  | [] => Ok acc
  | shipment :: items' =>
      match shipment with
      | VDict m =>
          match m !! "id" with
          | Some i => by_id items' (<[py_str repr_container i := m]> acc)
          | None => Raise KeyError
          end
      | _ => Raise TypeError
      end
  end.

(** The body of [ParcelDataCoordinator.async_refresh].  Of the log lines it
    keeps what can raise: the error line of a status other than 200 awaits
    [resp.text()].  Where it raises nothing has been assigned, so the
    coordinator is then as it was. *)
Definition refresh_body (c : coordinator) (x : exchange) : result coordinator :=
  except_network
    (match x with
     | Failed f => Raise (exn_of f)
     | Response status read =>
         if status =? 200 then
           body ← read;
           shipments ← py_get body "shipments" (VList []);
           items ← py_iter shipments;
           d ← by_id items ∅;
           Ok {| data := d; last_call := last_call c |}
         else
           text ← read;
           Ok c
     end)
    c.

(** [async_refresh] as decorated with [@Throttle(DEFAULT_SCAN_INTERVAL)],
    called at time [now]; [x] is the exchange the call would make. *)
Definition async_refresh (c : coordinator) (now : Z) (x : exchange)
  : result coordinator :=
  if throttled (last_call c) now then Ok c
  else
    c' ← refresh_body c x;
    Ok {| data := data c'; last_call := Some now |}.

(** ** [ParcelSensor] *)

Record ParcelSensor : Type := Sensor {
  parcel_id : string;
  _name : string;
  _unique_id : string
}.

(** [self.coordinator.data.get(self.parcel_id, {})] *)
Definition parcel_data (c : coordinator) (s : ParcelSensor) : record :=
  default ∅ (data c !! parcel_id s).

(** [ParcelSensor.__init__] *)
Definition new_sensor (c : coordinator) (pid name_prefix : string) : ParcelSensor :=
  let pd := default ∅ (data c !! pid) in
  {| parcel_id := pid;
     _name := name_prefix +:+ " "
              +:+ py_str repr_container (default (VStr "") (pd !! "carrier"))
              +:+ " "
              +:+ py_str repr_container (default (VStr "") (pd !! "tracking_number"));
     _unique_id := "parcel_" +:+ pid |}.

Definition name (s : ParcelSensor) : string := _name s.
Definition unique_id (s : ParcelSensor) : string := _unique_id s.

(** [self.parcel_data.get("status", "unknown")] *)
Definition state (c : coordinator) (s : ParcelSensor) : value :=
  default (VStr "unknown") (parcel_data c s !! "status").

(** [d.get(k)]: [None] when [k] is missing. *)
Definition get_or_none (d : record) (k : string) : value :=
  default VNone (d !! k).

(** [attrs[k] = d.get(k)] when [k in d] *)
Definition copy_if_present (k : string) (d attrs : record) : record :=
  if decide (is_Some (d !! k)) then <[k := get_or_none d k]> attrs else attrs.

Definition extra_state_attributes (c : coordinator) (s : ParcelSensor) : record :=
  let pd := parcel_data c s in
  if decide (size pd = 0%nat) then ∅
  else
    copy_if_present "tracking_history" pd
      (copy_if_present "location" pd
         (<["last_update" := get_or_none pd "last_update"]>
            (<["estimated_delivery" := get_or_none pd "estimated_delivery"]>
               (<["status_description" := get_or_none pd "status_description"]>
                  (<["status" := get_or_none pd "status"]>
                     (<["tracking_number" := get_or_none pd "tracking_number"]>
                        (<["carrier" := get_or_none pd "carrier"]> ∅))))))).

(** [ParcelSensor.icon] *)
Definition icon (c : coordinator) (s : ParcelSensor) : result string :=
  status ← py_lower (default (VStr "") (parcel_data c s !! "status"));
  Ok (if String.eqb status "delivered" then "mdi:package-variant-closed-check"
      else if String.eqb status "in_transit" then "mdi:truck-delivery"
      else if String.eqb status "out_for_delivery" then "mdi:truck-fast"
      else if String.eqb status "exception" || String.eqb status "failure"
           then "mdi:alert-circle"
      else "mdi:package-variant-closed").

(** [ParcelSensor.async_update]: the host's polling of the entity. *)
Definition async_update (c : coordinator) (now : Z) (x : exchange)
  : result coordinator :=
  async_refresh c now x.

(** ** The platform *)

(** The coordinator and the entities handed to the host, which keeps
    them: nothing in the platform removes or adds an entity later. *)
Record platform : Type := Platform {
  coord : coordinator;
  entities : list ParcelSensor
}.

(** [async_setup_platform]: the first refresh, then one [ParcelSensor]
    per key of the dataset. *)
Definition async_setup_platform (name_prefix : string) (now : Z) (x : exchange)
  : result platform :=
  c ← async_refresh init now x;
  Ok {| coord := c;
        entities := (λ pid, new_sensor c pid name_prefix) <$> (map_to_list (data c)).*1 |}.

(** The handler of the [parcel.refresh] service, [async_refresh_parcels]. *)
Definition async_refresh_parcels (p : platform) (now : Z) (x : exchange)
  : result platform :=
  c ← async_refresh (coord p) now x;
  Ok {| coord := c; entities := entities p |}.

(** The host polling one entity of the platform. *)
Definition poll_entity (p : platform) (now : Z) (x : exchange) : result platform :=
  c ← async_update (coord p) now x;
  Ok {| coord := c; entities := entities p |}.

End WithRepr.

End Legacy.

(** * The component: [custom_components/hass-parcel/sensor.py] *)

Module Component.

(** [SCAN_INTERVAL = timedelta(minutes=15)], in seconds. *)
Definition SCAN_INTERVAL : Z := 15 * 60.

(** ** [ParcelApiClient] *)

(** [get_shipments]: the exchange [x] is what [self.session.get] gives. *)
Definition get_shipments (x : exchange) : result value :=
  match x with
  | Failed f => Raise (exn_of f)
  | Response status json =>
      if negb (status =? 200)
      then Raise (PlainException ("Error fetching shipments: " +:+ pretty status))
      else
        data ← json;
        py_get data "shipments" (VList [])
  end.

(** [validate_api_key]: every exception of [get_shipments] becomes [False]. *)
Definition validate_api_key (x : exchange) : bool :=
  match get_shipments x with
  | Ok _ => true
  | Raise _ => false
  end.

(** ** [ParcelDataUpdateCoordinator] *)

(** [_async_update_data]: [except Exception as err: raise UpdateFailed(...)];
    the [UpdateFailed] keeps [err], which its message prints. *)
Definition _async_update_data (x : exchange) : result value :=
  match get_shipments x with
  | Ok shipments => Ok shipments
  | Raise err => Raise (UpdateFailed err)
  end.

(** The state the host's [DataUpdateCoordinator] base class keeps. *)
Record coordinator : Type := Coordinator {
  data : value;
  last_update_success : bool
}.

(** Modelled from the spec: the refresh of the host's [DataUpdateCoordinator]
    base class, which is not part of the repository.  It "calls the API
    Client; on success, replaces the dataset and marks success; on failure,
    logs, leaves the dataset untouched, and marks failure (observable by
    dependents as unavailable rather than raising)".  The repository's part
    of it is [_async_update_data]. *)
Definition async_refresh (c : coordinator) (x : exchange) : coordinator :=
  match _async_update_data x with
  | Ok d => {| data := d; last_update_success := true |}
  | Raise _ => {| data := data c; last_update_success := false |}
  end.

(** Modelled from the spec: the host's [async_request_refresh], the "same
    operation, invoked out-of-band". *)
Definition async_request_refresh (c : coordinator) (x : exchange) : coordinator :=
  async_refresh c x.

(** ** [ParcelDeliverySensor] *)

Record ParcelDeliverySensor : Type := Sensor {
  idx : nat;
  shipment : value;
  _attr_unique_id : string;
  _attr_name : string;
  _attr_icon : string;
  _attr_native_value : value;
  _attr_extra_state_attributes : record
}.

(** The colour branches of [update_attributes], on the lowercased status. *)
Definition color_of (status : string) : string :=
  if contains "delivered" status then "green"
  else if contains "transit" status then "blue"
  else if contains "exception" status || contains "failed" status then "red"
  else if contains "pending" status || contains "pre-transit" status then "orange"
  else "grey".

(** The colour of a status string: [color_of] after [.lower()]. *)
Definition status_color (status : string) : string := color_of (lower status).

(** [self.coordinator.data[self.idx] if self.idx < len(self.coordinator.data)
    else {}] *)
Definition current_shipment (c : coordinator) (i : nat) : result value :=
  n ← py_len (data c);
  if decide (i < n)%nat then py_index (data c) i else Ok (VDict ∅).

(** [update_attributes].  When it raises, the result does not keep the
    attributes assigned before the exception. *)
Definition update_attributes (c : coordinator) (s : ParcelDeliverySensor)
  : result ParcelDeliverySensor :=
  shipment ← current_shipment c (idx s);
  native_value ← py_get shipment "status" (VStr "unknown");
  a_name ← py_get shipment "name" (VStr "Unknown");
  carrier ← py_get shipment "carrier" (VDict ∅);
  a_carrier ← py_get carrier "name" (VStr "Unknown");
  a_tracking_number ← py_get shipment "tracking_number" (VStr "Unknown");
  a_status ← py_get shipment "status" (VStr "Unknown");
  a_last_update ← py_get shipment "last_update" (VStr "Unknown");
  a_estimated_delivery ← py_get shipment "estimated_delivery" (VStr "Unknown");
  a_from_location ← py_get shipment "from_location" (VStr "Unknown");
  a_to_location ← py_get shipment "to_location" (VStr "Unknown");
  a_shipment_id ← py_get shipment "id" (VStr "Unknown");
  status_value ← py_get shipment "status" (VStr "");
  status ← py_lower status_value;
  Ok {| idx := idx s;
        shipment := Component.shipment s;
        _attr_unique_id := _attr_unique_id s;
        _attr_name := _attr_name s;
        _attr_icon := _attr_icon s;
        _attr_native_value := native_value;
        _attr_extra_state_attributes :=
          <["status_color" := VStr (color_of status)]>
            (<["shipment_id" := a_shipment_id]>
               (<["to_location" := a_to_location]>
                  (<["from_location" := a_from_location]>
                     (<["estimated_delivery" := a_estimated_delivery]>
                        (<["last_update" := a_last_update]>
                           (<["status" := a_status]>
                              (<["tracking_number" := a_tracking_number]>
                                 (<["carrier" := a_carrier]>
                                    (<["name" := a_name]> ∅))))))))) |}.

(** [ParcelDeliverySensor.available]:
    [last_update_success and self.idx < len(self.coordinator.data)] *)
Definition available (c : coordinator) (s : ParcelDeliverySensor) : result bool :=
  if last_update_success c
  then n ← py_len (data c); Ok (bool_decide (idx s < n)%nat)
  else Ok false.

(** [ParcelDeliverySensor.async_update], with the coordinator the request
    leaves behind. *)
Definition async_update (c : coordinator) (x : exchange) (s : ParcelDeliverySensor)
  : result (coordinator * ParcelDeliverySensor) :=
  let c' := async_request_refresh c x in
  n ← py_len (data c');
  if decide (idx s < n)%nat then
    sh ← py_index (data c') (idx s);
    s' ← update_attributes c'
           {| idx := idx s;
              shipment := sh;
              _attr_unique_id := _attr_unique_id s;
              _attr_name := _attr_name s;
              _attr_icon := _attr_icon s;
              _attr_native_value := _attr_native_value s;
              _attr_extra_state_attributes := _attr_extra_state_attributes s |};
    Ok (c', s')
  else Ok (c', s).

(** The entity's state and attributes as the host reads them. *)
Definition native_value (s : ParcelDeliverySensor) : value := _attr_native_value s.
Definition extra_state_attributes (s : ParcelDeliverySensor) : record :=
  _attr_extra_state_attributes s.
Definition name (s : ParcelDeliverySensor) : string := _attr_name s.
Definition unique_id (s : ParcelDeliverySensor) : string := _attr_unique_id s.

(** [not v]: the values Python takes for false. *)
Definition py_not (v : value) : bool :=
  match v with
  | VNone => true
  | VBool b => negb b
  | VInt z => z =? 0
  | VStr s => bool_decide (String.length s = 0%nat)
  | VList l => bool_decide (length l = 0%nat)
  | VDict m => bool_decide (size m = 0%nat)
  end.

Section WithRepr.

Context (repr_container : value → string).

(** [ParcelDeliverySensor.__init__] *)
Definition new_sensor (c : coordinator) (i : nat) (shipment : value)
  : result ParcelDeliverySensor :=
  id ← py_get shipment "id" (VInt (Z.of_nat i));
  nm ← py_get shipment "name" (VStr ("#" +:+ pretty (Z.of_nat i + 1)));
  update_attributes c
    {| idx := i;
       shipment := shipment;
       _attr_unique_id := "parcel_delivery_" +:+ py_str repr_container id;
       _attr_name := "Parcel Delivery " +:+ py_str repr_container nm;
       _attr_icon := "mdi:package-variant";
       _attr_native_value := VNone;
       _attr_extra_state_attributes := ∅ |}.

(** [ParcelDeliverySensor(coordinator, idx, shipment) for idx, shipment in
    enumerate(items)], counting from [i]. *)
Fixpoint sensors_from (c : coordinator) (i : nat) (items : list value)
  : result (list ParcelDeliverySensor) :=
  match items with
  | [] => Ok []
  | shipment :: items' =>
      s ← new_sensor c i shipment;
      rest ← sensors_from c (S i) items';
      Ok (s :: rest)
  end.

(** The coordinator and the entities handed to the host. *)
Record platform : Type := Platform {
  coord : coordinator;
  entities : list ParcelDeliverySensor
}.

(** [async_setup_entry], from the coordinator [c0] the host's constructor
    built. *)
Definition async_setup_entry (c0 : coordinator) (x : exchange) : result platform :=
  let c := async_refresh c0 x in
  if py_not (data c) then Ok {| coord := c; entities := [] |}
  else
    items ← py_iter (data c);
    es ← sensors_from c 0 items;
    Ok {| coord := c; entities := es |}.

(** [async_setup_platform] with its discovery info. *)
Definition async_setup_platform (c0 : coordinator) (x : exchange) : result platform :=
  let c := async_refresh c0 x in
  items ← py_iter (data c);
  es ← sensors_from c 0 items;
  Ok {| coord := c; entities := es |}.

End WithRepr.

End Component.

(** * The config flow: [custom_components/hass-parcel/config_flow.py] *)

Module ConfigFlow.

(** The host's [CONF_API_KEY]. *)
Definition CONF_API_KEY : string := "api_key".

(** What a step of the flow hands back to the host: an entry to create, or
    the form to show with its errors. *)
Inductive flow_result : Type :=
  | CreateEntry (title : string) (data : record)
  | ShowForm (step_id : string) (errors : gmap string string).

(** [ParcelConfigFlow.async_step_user]; [x] is the exchange the validation
    makes.  [validate_api_key] has caught every exception of its own, so the
    [try] around it sees a value. *)
Definition async_step_user (user_input : option record) (x : exchange)
  : result flow_result :=
  match user_input with
  | None => Ok (ShowForm "user" ∅)
  | Some input =>
      match input !! CONF_API_KEY with
      | None => Raise KeyError
      | Some api_key =>
          match (Ok (Component.validate_api_key x) : result bool) with
          | Ok true =>
              Ok (CreateEntry "Parcel Deliveries" {[ CONF_API_KEY := api_key ]})
          | Ok false => Ok (ShowForm "user" {[ "base" := "invalid_auth" ]})
          | Raise _ => Ok (ShowForm "user" {[ "base" := "cannot_connect" ]})
          end
      end
  end.

End ConfigFlow.

(** * The integration: [custom_components/hass-parcel/__init__.py] *)

Module Integration.

(** [ParcelApiClient.__init__]: the client keeps the key (and the host's
    session). *)
Record ParcelApiClient : Type := Client { api_key : value }.

(** A config entry: its id and its data. *)
Record ConfigEntry : Type := Entry {
  entry_id : string;
  entry_data : record
}.

(** [hass.data] as far as the integration uses it: [None] while it has no
    [DOMAIN] key, else the dict from entry ids to clients. *)
Abbreviation hass_data := (option (gmap string ParcelApiClient)).

(** What [async_setup_entry] does to [hass.data]: [setdefault(DOMAIN, {})],
    then the client stored under the entry id.  This comes before the first
    refresh and the forwarding to the sensor platform, two calls of the host
    that do not touch [hass.data]. *)
Definition async_setup_entry (h : hass_data) (entry : ConfigEntry)
  : result hass_data :=
  match entry_data entry !! ConfigFlow.CONF_API_KEY with
  | None => Raise KeyError
  | Some k => Ok (Some (<[entry_id entry := {| api_key := k |}]> (default ∅ h)))
  end.

(** [async_unload_entry], given what the host's [async_unload_platforms]
    answered: [hass.data[DOMAIN].pop(entry.entry_id)] when it is true. *)
Definition async_unload_entry (h : hass_data) (entry : ConfigEntry) (unload_ok : bool)
  : result (hass_data * bool) :=
  if unload_ok then
    match h with
    | None => Raise KeyError
    | Some d =>
        match d !! entry_id entry with
        | None => Raise KeyError
        | Some _ => Ok (Some (delete (entry_id entry) d), true)
        end
    end
  else Ok (h, false).

(** [client = hass.data[DOMAIN][config_entry.entry_id]], the first line of
    the sensor platform's [async_setup_entry]. *)
Definition platform_client (h : hass_data) (entry : ConfigEntry)
  : result ParcelApiClient :=
  match h with
  | None => Raise KeyError
  | Some d =>
      match d !! entry_id entry with
      | None => Raise KeyError
      | Some client => Ok client
      end
  end.

End Integration.

(** * The properties, in the words of the specification *)

(** [p] occurs in [s]: [s] is [p] with something before and after it. *)
Definition occurs (p s : string) : Prop := ∃ a b, s = a +:+ p +:+ b.

(** The five status colours. *)
Definition colours : list string := ["green"; "blue"; "red"; "orange"; "grey"].

(** The colour table in its priority order: the patterns of a row and the
    colour of the first row one of whose patterns occurs in the status. *)
Definition colour_table : list (list string * string) :=
  [ (["delivered"], "green");
    (["transit"], "blue");
    (["exception"; "failed"], "red");
    (["pending"; "pre-transit"], "orange") ].

Definition first_match_colour (status : string) : string :=
  match find (λ row, existsb (λ p, contains p (lower status)) row.1) colour_table with
  | Some row => row.2
  | None => "grey"
  end.

(** A fetch failure: a status other than 200, or no response at all. *)
Definition fetch_failure (x : exchange) : Prop :=
  match x with
  | Response status _ => status ≠ 200
  | Failed _ => True
  end.

(** A successful fetch that returns [items]: status 200 and a JSON object
    whose [shipments] field is the list [items] (the empty list when the
    field is missing). *)
Definition successful_fetch (x : exchange) (items : list value) : Prop :=
  ∃ body : record,
    x = Response 200 (Ok (VDict body))
    ∧ default (VList []) (body !! "shipments") = VList items.

(** A shipment with an identifier. *)
Definition has_id (shipment : value) : Prop :=
  ∃ (m : record) i, shipment = VDict m ∧ m !! "id" = Some i.

(** The entry a shipment contributes to a dataset keyed by id. *)
Definition keyed (repr : value → string) (shipment : value)
  : option (string * record) :=
  match shipment with
  | VDict m => (λ i, (py_str repr i, m)) <$> m !! "id"
  | _ => None
  end.

(** A list of shipments keyed by shipment id; of two shipments with one id
    the later stands. *)
Definition keyed_by_id (repr : value → string) (items : list value)
  : gmap string record :=
  list_to_map (reverse (omap (keyed repr) items)).

(** The identifier [k] is absent from a list of shipments. *)
Definition id_absent (repr : value → string) (k : string) (items : list value)
  : Prop :=
  ∀ (m : record) i, VDict m ∈ items → m !! "id" = Some i → py_str repr i ≠ k.

(** A fetch that fails: a fetch failure, or a client error or a timeout
    while the body of the response is read. *)
Definition fetch_fails (x : exchange) : Prop :=
  fetch_failure x
  ∨ ∃ status e, x = Response status (Raise e)
                ∧ (e = ClientError ∨ e = TimeoutError).

(** The text of an error response can be had for the log line: reading the
    body of a response whose status is not 200 returns, or fails with a
    client error or a timeout. *)
Definition error_text_read (x : exchange) : Prop :=
  match x with
  | Response status (Raise e) =>
      status = 200 ∨ e = ClientError ∨ e = TimeoutError
  | _ => True
  end.

(** * Scenarios *)

(** A [repr] for the scenarios, none of which prints a list or a dict. *)
Definition repr_unused : value → string := λ _, "".

(** A shipment from its fields, and the response [{"shipments": items}]. *)
Definition shipment_of (fields : list (string * value)) : value :=
  VDict (list_to_map fields).

Definition shipments_response (items : list value) : exchange :=
  Response 200 (Ok (VDict {[ "shipments" := VList items ]})).

Definition parcel_42 : value :=
  shipment_of [("id", VInt 42); ("carrier", VStr "UPS");
               ("tracking_number", VStr "1Z999"); ("status", VStr "in_transit")].

Definition parcel_7 : value :=
  shipment_of [("id", VInt 7); ("carrier", VStr "DHL");
               ("tracking_number", VStr "JD014"); ("status", VStr "delivered")].

(** The legacy coordinator one hour after a fetch of shipment 7 at time 0
    filled it. *)
Definition coordinator_with_7 : Legacy.coordinator :=
  {| Legacy.data :=
       {[ "7" := list_to_map
                   [("id", VInt 7); ("carrier", VStr "DHL");
                    ("tracking_number", VStr "JD014");
                    ("status", VStr "delivered")] ]};
     Legacy.last_call := Some 0 |}.

(** The legacy platform set up at time 0 on a fetch of shipments 42 and 7,
    then refreshed by the service an hour later on a fetch of shipment 7
    alone. *)
Definition legacy_two_fetches : result Legacy.platform :=
  p ← Legacy.async_setup_platform repr_unused Legacy.DEFAULT_NAME 0
        (shipments_response [parcel_42; parcel_7]);
  Legacy.async_refresh_parcels repr_unused p 3600 (shipments_response [parcel_7]).

(** No entity of the platform stands for the shipment id [k]. *)
Definition no_entity_for (k : string) (p : Legacy.platform) : Prop :=
  ∀ s, s ∈ Legacy.entities p → Legacy.parcel_id s ≠ k.

(** The component's coordinator as the host builds it, before any refresh. *)
Definition fresh_coordinator : Component.coordinator :=
  {| Component.data := VNone; Component.last_update_success := true |}.

Definition shoes : value :=
  shipment_of [("id", VInt 1); ("name", VStr "Shoes"); ("status", VStr "delivered")].

Definition books : value :=
  shipment_of [("id", VInt 2); ("name", VStr "Books"); ("status", VStr "in_transit")].

Definition lamp : value :=
  shipment_of [("id", VInt 3); ("name", VStr "Lamp"); ("status", VStr "pending")].

(** The ids of a list of shipments. *)
Definition ids_of (items : list value) : list value :=
  omap (λ v, match v with VDict m => m !! "id" | _ => None end) items.

(** What an entity of the component shows: its unique id and name, its state
    and the [shipment_id] attribute. *)
Definition shown (e : Component.ParcelDeliverySensor)
  : string * string * value * option value :=
  (Component.unique_id e, Component.name e, Component.native_value e,
   Component.extra_state_attributes e !! "shipment_id").

(** The component set up on the fetch [first]; then its entity number [i]
    updated on the fetch [second]: what the entity shows before and after. *)
Definition entity_across_refresh (first second : list value) (i : nat)
  : result ((string * string * value * option value)
            * (string * string * value * option value)) :=
  p ← Component.async_setup_entry repr_unused fresh_coordinator
        (shipments_response first);
  match Component.entities p !! i with
  | Some e =>
      r ← Component.async_update (Component.coord p) (shipments_response second) e;
      Ok (shown e, shown r.2)
  | None => Raise IndexError
  end.

(** The same, for availability: the success flag of the coordinator after the
    refresh on [second], and what entity number [i] reports. *)
Definition availability_across_refresh (first second : list value) (i : nat)
  : result (bool * bool) :=
  p ← Component.async_setup_entry repr_unused fresh_coordinator
        (shipments_response first);
  match Component.entities p !! i with
  | Some e =>
      let c := Component.async_refresh (Component.coord p) (shipments_response second) in
      a ← Component.available c e;
      Ok (Component.last_update_success c, a)
  | None => Raise IndexError
  end.

(** ** Reading a shipment with fallbacks *)

(** A record whose [carrier], when it has one, is a dict, and whose [status],
    when it has one, is a string. *)
Definition typed_fields (m : record) : Prop :=
  (∀ v, m !! "carrier" = Some v → ∃ d : record, v = VDict d)
  ∧ (∀ v, m !! "status" = Some v → ∃ s, v = VStr s).

Definition field_or_unknown (m : record) (k : string) : value :=
  default (VStr "Unknown") (m !! k).

Definition carrier_name (m : record) : value :=
  match m !! "carrier" with
  | Some (VDict d) => default (VStr "Unknown") (d !! "name")
  | _ => VStr "Unknown"
  end.

Definition status_string (m : record) : string :=
  match m !! "status" with
  | Some (VStr s) => s
  | _ => ""
  end.

(** The attributes of a shipment [m], every missing field read as
    ["Unknown"]. *)
Definition attributes_of (m : record) : record :=
  list_to_map
    [ ("status_color", VStr (Component.status_color (status_string m)));
      ("shipment_id", field_or_unknown m "id");
      ("to_location", field_or_unknown m "to_location");
      ("from_location", field_or_unknown m "from_location");
      ("estimated_delivery", field_or_unknown m "estimated_delivery");
      ("last_update", field_or_unknown m "last_update");
      ("status", field_or_unknown m "status");
      ("tracking_number", field_or_unknown m "tracking_number");
      ("carrier", carrier_name m);
      ("name", field_or_unknown m "name") ].

(** The attributes the legacy sensor always gives a shipment. *)
Definition legacy_attribute_keys : list string :=
  ["carrier"; "tracking_number"; "status"; "status_description";
   "estimated_delivery"; "last_update"].

(** The fields of the shipment [{"id": 1, "status": "In_Transit"}]. *)
Definition in_transit_fields : record :=
  list_to_map [("id", VInt 1); ("status", VStr "In_Transit")].

(** The state and the colour of the entities of the component set up on a
    fetch of [items]. *)
Definition component_readings (items : list value)
  : result (list (value * option value)) :=
  p ← Component.async_setup_entry repr_unused fresh_coordinator
        (shipments_response items);
  Ok ((λ e, (Component.native_value e,
             Component.extra_state_attributes e !! "status_color"))
        <$> Component.entities p).

(** The states of the entities of the legacy platform set up on a fetch of
    [items]. *)
Definition legacy_readings (items : list value) : result (list value) :=
  p ← Legacy.async_setup_platform repr_unused Legacy.DEFAULT_NAME 0
        (shipments_response items);
  Ok (Legacy.state (Legacy.coord p) <$> Legacy.entities p).

(** A shipment whose carrier is a plain string, and one whose status is
    [null]. *)
Definition plain_carrier : value :=
  shipment_of [("id", VInt 1); ("name", VStr "Shoes"); ("carrier", VStr "UPS");
               ("status", VStr "delivered")].

Definition null_status : value :=
  shipment_of [("id", VInt 1); ("name", VStr "Shoes"); ("status", VNone)].

(** The attributes of a missing shipment. *)
Definition unknown_attributes : record :=
  list_to_map
    [ ("status_color", VStr "grey");
      ("shipment_id", VStr "Unknown");
      ("to_location", VStr "Unknown");
      ("from_location", VStr "Unknown");
      ("estimated_delivery", VStr "Unknown");
      ("last_update", VStr "Unknown");
      ("status", VStr "Unknown");
      ("tracking_number", VStr "Unknown");
      ("carrier", VStr "Unknown");
      ("name", VStr "Unknown") ].

(** A shipment with a name, a carrier and a tracking number. *)
Definition tracked_shoes : value :=
  shipment_of [("id", VInt 1); ("name", VStr "Shoes");
               ("carrier", VDict {[ "name" := VStr "UPS" ]});
               ("tracking_number", VStr "1Z999"); ("status", VStr "delivered")].

(** The display names of the entities set up on a fetch of [items]. *)
Definition legacy_names (items : list value) : result (list string) :=
  p ← Legacy.async_setup_platform repr_unused Legacy.DEFAULT_NAME 0
        (shipments_response items);
  Ok (Legacy.name <$> Legacy.entities p).

Definition component_names (items : list value) : result (list string) :=
  p ← Component.async_setup_entry repr_unused fresh_coordinator
        (shipments_response items);
  Ok (Component.name <$> Component.entities p).

(** ** Further properties *)

(** Every entry of the legacy dataset is stored under the printed id of its
    own shipment. *)
Definition keys_match (repr : value → string) (c : Legacy.coordinator) : Prop :=
  ∀ k (m : record), Legacy.data c !! k = Some m →
    ∃ i, m !! "id" = Some i ∧ py_str repr i = k.

(** A run of calls of the refresh service, each at its time and with the
    exchange it would make; the run ends at the first call that raises. *)
Fixpoint refresh_calls (repr : value → string) (p : Legacy.platform)
  (calls : list (Z * exchange)) : result Legacy.platform :=
  match calls with
  | [] => Ok p
  | (now, x) :: rest =>
      p' ← Legacy.async_refresh_parcels repr p now x;
      refresh_calls repr p' rest
  end.

(** The icons of the legacy sensor by status, and the icon of every other
    status. *)
Definition icon_table : gmap string string :=
  list_to_map
    [ ("delivered", "mdi:package-variant-closed-check");
      ("in_transit", "mdi:truck-delivery");
      ("out_for_delivery", "mdi:truck-fast");
      ("exception", "mdi:alert-circle");
      ("failure", "mdi:alert-circle") ].

Definition default_icon : string := "mdi:package-variant-closed".

(** The attributes the legacy sensor gives a shipment only when the shipment
    has the field. *)
Definition legacy_optional_keys : list string := ["location"; "tracking_history"].

(** The keys of the component's attributes. *)
Definition component_attribute_keys : gset string :=
  list_to_set
    ["name"; "carrier"; "tracking_number"; "status"; "last_update";
     "estimated_delivery"; "from_location"; "to_location"; "shipment_id";
     "status_color"].

(** A shipment the component can read: a dict whose carrier and status, when
    it has them, are a dict and a string. *)
Definition typed_shipment (v : value) : Prop :=
  ∃ m : record, v = VDict m ∧ typed_fields m.

(** A value that [for] cannot loop over. *)
Definition not_iterable (v : value) : Prop :=
  match v with
  | VNone | VBool _ | VInt _ => True
  | _ => False
  end.

(** The ids the component prints into unique ids: the shipment's id, or its
    position when it has none. *)
Definition printed_ids (repr : value → string) (items : list value) : list string :=
  imap (λ i v, match v with
               | VDict m => py_str repr (default (VInt (Z.of_nat i)) (m !! "id"))
               | _ => ""
               end) items.

(** In a hypothesis [r1 ≫= (λ x1, r2 ≫= ...) = Ok a], every step returned. *)
Ltac run_binds H :=
  repeat match type of H with
         | (?r ≫= _) = _ => destruct r; simpl in H; [|discriminate]
         end.

(** * Strings: facts *)

Lemma prefix_occurs p s : String.prefix p s = true ↔ ∃ b, s = p +:+ b.
Proof.
  revert s; induction p as [|c p IH]; intros s; simpl.
  - split; [intros _; exists s; reflexivity | destruct s; reflexivity].
  - destruct s as [|d s]; simpl.
    + split; [discriminate | intros [b Hb]; discriminate].
    + destruct (Ascii.ascii_dec c d) as [->|Hne].
      * rewrite IH. split; intros [b Hb]; exists b.
        -- rewrite Hb. reflexivity.
        -- change (String d s = String d (p +:+ b)) in Hb. congruence.
      * split; [discriminate | intros [b Hb]].
        change (String d s = String c (p +:+ b)) in Hb. congruence.
Qed.

Lemma contains_nil p : contains p "" = String.prefix p "".
Proof. unfold contains. apply orb_false_r. Qed.

Lemma contains_cons p c s :
  contains p (String c s) = String.prefix p (String c s) || contains p s.
Proof. reflexivity. Qed.

Lemma contains_occurs p s : contains p s = true ↔ occurs p s.
Proof.
  induction s as [|c s IH].
  - rewrite contains_nil, prefix_occurs. split.
    + intros [b Hb]. exists "", b. exact Hb.
    + intros ([|d a] & b & Hb); [exists b; exact Hb | discriminate].
  - rewrite contains_cons, orb_true_iff, IH, prefix_occurs. split.
    + intros [[b Hb] | (a & b & Hab)].
      * exists "", b. exact Hb.
      * exists (String c a), b. rewrite Hab. reflexivity.
    + intros ([|d a] & b & Hab).
      * left. exists b. exact Hab.
      * right. exists a, b.
        change (String c s = String d (a +:+ p +:+ b)) in Hab. congruence.
Qed.

Lemma contains_false_occurs p s : contains p s = false ↔ ¬ occurs p s.
Proof. rewrite <- contains_occurs. destruct (contains p s); intuition congruence. Qed.

Lemma occurs_app_l p a s : occurs p s → occurs p (a +:+ s).
Proof.
  intros (u & v & ->). exists (a +:+ u), v.
  induction a as [|c a IH]; [reflexivity|].
  change (String c (a +:+ u +:+ p +:+ v) = String c ((a +:+ u) +:+ p +:+ v)).
  congruence.
Qed.

Lemma lower_ascii_idemp c : lower_ascii (lower_ascii c) = lower_ascii c.
Proof. destruct c as [[] [] [] [] [] [] [] []]; reflexivity. Qed.

Lemma lower_idemp s : lower (lower s) = lower s.
Proof. induction s as [|c s IH]; simpl; [|rewrite lower_ascii_idemp, IH]; reflexivity. Qed.

(** * The status colour *)

(** The colour attribute [update_attributes] stores is [status_color] of the
    shipment's status string. *)
Lemma color_of_lower status :
  Component.color_of (lower status) = Component.status_color status.
Proof. reflexivity. Qed.

(** C3: the status colour is a total function of the status string; its value
    is one of green, blue, red, orange and grey, it is the colour of the first
    row of the priority table (delivered, transit, exception/failed,
    pending/pre-transit) one of whose patterns occurs in the lowercased
    status, grey when none does, and it does not depend on the case of the
    letters. *)
Theorem status_color_total_priority (status : string) :
  Component.status_color status ∈ colours
  ∧ Component.status_color status = first_match_colour status
  ∧ (∀ status', lower status' = lower status →
       Component.status_color status' = Component.status_color status)
  ∧ Component.status_color (lower status) = Component.status_color status
  ∧ (Component.status_color status = "green" ↔ occurs "delivered" (lower status))
  ∧ (Component.status_color status = "blue" ↔
       ¬ occurs "delivered" (lower status) ∧ occurs "transit" (lower status))
  ∧ (Component.status_color status = "red" ↔
       ¬ occurs "delivered" (lower status) ∧ ¬ occurs "transit" (lower status)
       ∧ (occurs "exception" (lower status) ∨ occurs "failed" (lower status)))
  ∧ (Component.status_color status = "orange" ↔
       ¬ occurs "delivered" (lower status) ∧ ¬ occurs "transit" (lower status)
       ∧ ¬ occurs "exception" (lower status) ∧ ¬ occurs "failed" (lower status)
       ∧ (occurs "pending" (lower status) ∨ occurs "pre-transit" (lower status)))
  ∧ (Component.status_color status = "grey" ↔
       ¬ occurs "delivered" (lower status) ∧ ¬ occurs "transit" (lower status)
       ∧ ¬ occurs "exception" (lower status) ∧ ¬ occurs "failed" (lower status)
       ∧ ¬ occurs "pending" (lower status) ∧ ¬ occurs "pre-transit" (lower status)).
Proof.
  set (s := lower status).
  assert (Hcase : ∀ status', lower status' = lower status →
            Component.status_color status' = Component.status_color status)
    by (intros status' H; unfold Component.status_color; rewrite H; reflexivity).
  split; [|split; [|split; [exact Hcase|split; [apply Hcase, lower_idemp|]]]].
  - unfold Component.status_color, Component.color_of, colours.
    repeat match goal with |- context [if ?b then _ else _] => destruct b end;
      apply list_elem_of_In; simpl; tauto.
  - unfold Component.status_color, Component.color_of, first_match_colour,
      colour_table, find, existsb, fst, snd.
    fold s.
    destruct (contains "delivered" s), (contains "transit" s),
      (contains "exception" s), (contains "failed" s),
      (contains "pending" s), (contains "pre-transit" s); reflexivity.
  - rewrite <- !contains_occurs.
    unfold Component.status_color, Component.color_of. fold s.
    destruct (contains "delivered" s), (contains "transit" s),
      (contains "exception" s), (contains "failed" s),
      (contains "pending" s), (contains "pre-transit" s);
      cbn; repeat split; intros; try discriminate; try tauto;
      intuition discriminate.
Qed.

(** * Fetch failures *)

Lemma get_shipments_failure x :
  fetch_failure x →
  Component.get_shipments x =
    Raise match x with
          | Response status _ =>
              PlainException ("Error fetching shipments: " +:+ pretty status)
          | Failed f => exn_of f
          end.
Proof.
  destruct x as [status json|f]; simpl; intros H; [|reflexivity].
  destruct (Z.eqb_spec status 200) as [->|_]; [contradiction|reflexivity].
Qed.



(** * The legacy dataset *)

Lemma foldl_insert_list_to_map (kvs : list (string * record)) (acc : gmap string record) :
  foldl (λ a kv, <[kv.1 := kv.2]> a) acc kvs = list_to_map (reverse kvs) ∪ acc.
Proof.
  revert acc; induction kvs as [|[k v] kvs IH]; intros acc; simpl.
  - rewrite (left_id_L ∅ (∪)). reflexivity.
  - rewrite IH, reverse_cons, list_to_map_app. simpl.
    rewrite <- (assoc_L (∪)). f_equal.
    rewrite insert_empty, <- insert_union_singleton_l. reflexivity.
Qed.

Lemma by_id_fold repr (items : list value) (acc : gmap string record) :
  Forall has_id items →
  Legacy.by_id repr items acc
  = Ok (foldl (λ a kv, <[kv.1 := kv.2]> a) acc (omap (keyed repr) items)).
Proof.
  intros H; revert acc; induction H as [|v items (m & i & -> & Hi) _ IH];
    intros acc; simpl; [reflexivity|].
  rewrite Hi. simpl. apply IH.
Qed.

Lemma by_id_keyed repr (items : list value) :
  Forall has_id items →
  Legacy.by_id repr items ∅ = Ok (keyed_by_id repr items).
Proof.
  intros H. rewrite by_id_fold, foldl_insert_list_to_map by exact H.
  rewrite (right_id_L ∅ (∪)). reflexivity.
Qed.

Lemma elem_of_keyed repr (items : list value) k (m : record) :
  (k, m) ∈ omap (keyed repr) items ↔
  ∃ i, VDict m ∈ items ∧ m !! "id" = Some i ∧ py_str repr i = k.
Proof.
  rewrite list_elem_of_omap. split.
  - intros (v & Hv & Hk). destruct v as [| | | | |m']; try discriminate.
    simpl in Hk. destruct (m' !! "id") as [i|] eqn:Hi; [|discriminate].
    simpl in Hk. injection Hk as <- <-. eauto.
  - intros (i & Hin & Hi & <-). exists (VDict m). split; [exact Hin|].
    simpl. rewrite Hi. reflexivity.
Qed.

Lemma keyed_by_id_lookup_Some repr items k (m : record) :
  keyed_by_id repr items !! k = Some m →
  ∃ i, VDict m ∈ items ∧ m !! "id" = Some i ∧ py_str repr i = k.
Proof.
  intros H. apply elem_of_list_to_map_2 in H.
  rewrite elem_of_reverse in H. apply elem_of_keyed in H. exact H.
Qed.

Lemma keyed_by_id_lookup_None repr items k :
  id_absent repr k items → keyed_by_id repr items !! k = None.
Proof.
  intros Habs. destruct (keyed_by_id repr items !! k) as [m|] eqn:E; [|reflexivity].
  apply keyed_by_id_lookup_Some in E as (i & Hin & Hi & Hk).
  exfalso. exact (Habs m i Hin Hi Hk).
Qed.

Lemma keyed_by_id_is_Some repr items (m : record) i :
  VDict m ∈ items → m !! "id" = Some i →
  is_Some (keyed_by_id repr items !! py_str repr i).
Proof.
  intros Hin Hi. unfold keyed_by_id.
  apply not_eq_None_Some. intros Hnone.
  apply not_elem_of_list_to_map_2 in Hnone. apply Hnone.
  apply list_elem_of_fmap. exists (py_str repr i, m). split; [reflexivity|].
  rewrite elem_of_reverse. apply elem_of_keyed. eauto.
Qed.

Lemma keyed_by_id_NoDup repr items (m : record) i :
  NoDup (omap (keyed repr) items).*1 →
  VDict m ∈ items → m !! "id" = Some i →
  keyed_by_id repr items !! py_str repr i = Some m.
Proof.
  intros Hnd Hin Hi. unfold keyed_by_id.
  apply elem_of_list_to_map_1.
  - rewrite fmap_reverse, reverse_Permutation. exact Hnd.
  - rewrite elem_of_reverse. apply elem_of_keyed. eauto.
Qed.

Lemma refresh_body_success repr (c : Legacy.coordinator) x items :
  successful_fetch x items → Forall has_id items →
  Legacy.refresh_body repr c x
  = Ok {| Legacy.data := keyed_by_id repr items;
          Legacy.last_call := Legacy.last_call c |}.
Proof.
  intros (body & -> & Hbody) Hid. unfold Legacy.refresh_body. simpl.
  rewrite Hbody. simpl. rewrite (by_id_keyed repr items Hid). reflexivity.
Qed.

Lemma refresh_body_failure repr (c : Legacy.coordinator) x :
  fetch_fails x → error_text_read x → Legacy.refresh_body repr c x = Ok c.
Proof.
  intros Hf Ht. unfold Legacy.refresh_body.
  destruct x as [status body|[]]; try reflexivity.
  destruct body as [v|e].
  - destruct Hf as [Hf|(st & e & [=] & _)]. simpl in Hf.
    destruct (Z.eqb_spec status 200) as [->|_]; [contradiction|reflexivity].
  - assert (He : e = ClientError ∨ e = TimeoutError).
    { destruct Hf as [Hf|(st & e' & [= _ ->] & He)]; [|exact He].
      simpl in Hf, Ht. destruct Ht as [->|Ht]; [contradiction|exact Ht]. }
    destruct (status =? 200), He as [-> | ->]; reflexivity.
Qed.

(** A refresh that returns on a fetch failure returns the coordinator it
    was given. *)
Lemma refresh_body_failure_inv repr (c c' : Legacy.coordinator) x :
  fetch_failure x → Legacy.refresh_body repr c x = Ok c' → c' = c.
Proof.
  unfold Legacy.refresh_body.
  destruct x as [status body|[]]; simpl; intros Hf; try (intros [= <-]; reflexivity).
  destruct (Z.eqb_spec status 200) as [->|_]; [contradiction|].
  destruct body as [v|e]; simpl; [intros [= <-]; reflexivity|].
  destruct e; try discriminate; intros [= <-]; reflexivity.
Qed.

Lemma async_refresh_throttled repr (c : Legacy.coordinator) now x :
  Legacy.throttled (Legacy.last_call c) now = true →
  Legacy.async_refresh repr c now x = Ok c.
Proof. intros H. unfold Legacy.async_refresh. rewrite H. reflexivity. Qed.

Lemma async_refresh_passed repr (c : Legacy.coordinator) now x :
  Legacy.throttled (Legacy.last_call c) now = false →
  Legacy.async_refresh repr c now x
  = (c' ← Legacy.refresh_body repr c x;
     Ok {| Legacy.data := Legacy.data c'; Legacy.last_call := Some now |}).
Proof. intros H. unfold Legacy.async_refresh. rewrite H. reflexivity. Qed.

Lemma throttled_spec last now :
  Legacy.throttled last now = true
  ↔ ∃ t, last = Some t ∧ now - t ≤ Legacy.DEFAULT_SCAN_INTERVAL.
Proof.
  unfold Legacy.throttled. destruct last as [t|].
  - rewrite negb_true_iff, Z.ltb_ge. split.
    + intros H. exists t. split; [reflexivity|exact H].
    + intros (t' & [= <-] & H). exact H.
  - split; [discriminate|intros (t & [=] & _)].
Qed.

(** Once a call ran at time [t], a call on either path that comes within the
    interval is dropped, whatever the exchange would have been. *)
Lemma call_within_interval_dropped repr (c c' : Legacy.coordinator) t x now x' :
  Legacy.throttled (Legacy.last_call c) t = false →
  Legacy.async_refresh repr c t x = Ok c' →
  now - t ≤ Legacy.DEFAULT_SCAN_INTERVAL →
  Legacy.async_refresh repr c' now x' = Ok c'.
Proof.
  intros Ht Hc Hnow. rewrite (async_refresh_passed repr c t x Ht) in Hc.
  destruct (Legacy.refresh_body repr c x) as [c1|e]; simpl in Hc; [|discriminate].
  injection Hc as <-. apply async_refresh_throttled, throttled_spec.
  exists t. split; [reflexivity|exact Hnow].
Qed.

(** A response with status 200 whose body is not JSON text: the legacy
    handler does not catch the decoder's [ValueError]. *)
Lemma legacy_undecodable_body_raises repr (c : Legacy.coordinator) :
  Legacy.refresh_body repr c (Response 200 (Raise ValueError)) = Raise ValueError.
Proof. reflexivity. Qed.

(** C2 (amended): on a fetch that fails (a status other than 200, a
    connection error or a timeout in place of the response or while its body
    is read) the dataset after the refresh is the dataset before.  In the
    component [_async_update_data] raises [UpdateFailed], on which the host's
    refresh keeps the dataset, clears [last_update_success], and every
    [ParcelDeliverySensor] reports unavailable.  The legacy refresh returns
    without an exception, throttled or not, when the text of the error
    response can be had for its log line; it records no failure: the
    coordinator it returns differs from the one before in the throttle's
    time alone, and every sensor has the state and the attributes it had. *)
Theorem refresh_failure_keeps_dataset
  (repr : value → string) (x : exchange) :
  fetch_fails x →
  (error_text_read x →
   (∀ c, Legacy.refresh_body repr c x = Ok c)
   ∧ (∀ c now, ∃ c', Legacy.async_refresh repr c now x = Ok c'
                     ∧ Legacy.data c' = Legacy.data c
                     ∧ (c' = c
                        ∨ c' = {| Legacy.data := Legacy.data c;
                                  Legacy.last_call := Some now |})
                     ∧ ∀ s, Legacy.state c' s = Legacy.state c s
                            ∧ Legacy.extra_state_attributes c' s
                              = Legacy.extra_state_attributes c s))
  ∧ (∃ e, Component._async_update_data x = Raise (UpdateFailed e))
  ∧ (∀ c, Component.data (Component.async_refresh c x) = Component.data c
          ∧ Component.last_update_success (Component.async_refresh c x) = false
          ∧ ∀ s, Component.available (Component.async_refresh c x) s = Ok false).
Proof.
  intros H.
  assert (Hg : ∃ e, Component.get_shipments x = Raise e).
  { destruct H as [H|(status & e & -> & _)].
    - eexists. exact (get_shipments_failure x H).
    - simpl. destruct (status =? 200); simpl; eexists; reflexivity. }
  destruct Hg as [e Hg].
  split; [|split].
  - intros Ht. split.
    + intros c. exact (refresh_body_failure repr c x H Ht).
    + intros c now. unfold Legacy.async_refresh.
      destruct (Legacy.throttled (Legacy.last_call c) now).
      * exists c. split; [reflexivity|]. split; [reflexivity|].
        split; [left; reflexivity|]. intros s. split; reflexivity.
      * rewrite (refresh_body_failure repr c x H Ht). simpl.
        eexists. split; [reflexivity|]. split; [reflexivity|].
        split; [right; reflexivity|]. intros s. split; reflexivity.
  - unfold Component._async_update_data. rewrite Hg. eexists. reflexivity.
  - intros c. unfold Component.async_refresh, Component._async_update_data.
    rewrite Hg. simpl.
    split; [reflexivity|split; [reflexivity|intros s; reflexivity]].
Qed.

Lemma refresh_failure_keeps_dataset_witness :
  fetch_fails (Response 500 (Ok (VStr "Internal Server Error")))
  ∧ error_text_read (Response 500 (Ok (VStr "Internal Server Error")))
  ∧ Legacy.refresh_body repr_unused coordinator_with_7
      (Response 500 (Ok (VStr "Internal Server Error")))
    = Ok coordinator_with_7
  ∧ (∀ s, Component.available
            (Component.async_refresh fresh_coordinator
               (Response 500 (Ok (VStr "Internal Server Error")))) s
          = Ok false).
Proof.
  assert (H1 : fetch_fails (Response 500 (Ok (VStr "Internal Server Error"))))
    by (left; simpl; lia).
  assert (H2 : error_text_read (Response 500 (Ok (VStr "Internal Server Error"))))
    by exact I.
  split; [exact H1|]. split; [exact H2|].
  destruct (refresh_failure_keeps_dataset repr_unused
              (Response 500 (Ok (VStr "Internal Server Error"))) H1)
    as (HL & _ & HC).
  split; [exact (proj1 (HL H2) coordinator_with_7)|].
  exact (proj2 (proj2 (HC fresh_coordinator))).
Defined.

(** C2 (as stated, refuted): the legacy refresh records no failure and can
    raise on one.  A fetch that times out and a fetch that succeeds with the
    shipments the dataset already holds leave the same coordinator, so
    nothing an entity reads tells the failure from the success; and on a
    response of status 500 whose text cannot be decoded the refresh raises
    the decoder's [ValueError], which its handler does not catch. *)
Lemma legacy_failure_unrecorded :
  Legacy.async_refresh repr_unused coordinator_with_7 3600 (Failed TimedOut)
  = Legacy.async_refresh repr_unused coordinator_with_7 3600
      (shipments_response [parcel_7])
  ∧ Legacy.async_refresh repr_unused coordinator_with_7 3600 (Failed TimedOut)
    = Ok {| Legacy.data := Legacy.data coordinator_with_7;
            Legacy.last_call := Some 3600 |}
  ∧ fetch_failure (Response 500 (Raise ValueError))
  ∧ Legacy.async_refresh repr_unused coordinator_with_7 3600
      (Response 500 (Raise ValueError))
    = Raise ValueError.
Proof.
  split; [vm_compute; reflexivity|].
  split; [vm_compute; reflexivity|].
  split; [simpl; lia|].
  vm_compute. reflexivity.
Qed.

(** * The manual refresh and the polled refresh *)

(** C9: the handler of the refresh service and the polled update of an
    entity run the same throttled [async_refresh]: at every time and for
    every exchange they give the same result.  A call that comes no later
    than the minimum interval after the last one that ran is dropped on
    either path (no fetch, the platform is unchanged), and a call that the
    throttle lets through runs the refresh body on either path. *)
Theorem manual_refresh_same_as_poll
  (repr : value → string) (p : Legacy.platform) (now : Z) (x : exchange) :
  Legacy.async_refresh_parcels repr p now x = Legacy.poll_entity repr p now x
  ∧ ((∃ t, Legacy.last_call (Legacy.coord p) = Some t
           ∧ now - t ≤ Legacy.DEFAULT_SCAN_INTERVAL) →
     Legacy.async_refresh_parcels repr p now x = Ok p
     ∧ Legacy.poll_entity repr p now x = Ok p)
  ∧ (¬ (∃ t, Legacy.last_call (Legacy.coord p) = Some t
             ∧ now - t ≤ Legacy.DEFAULT_SCAN_INTERVAL) →
     ∀ r, r = Legacy.async_refresh_parcels repr p now x
          ∨ r = Legacy.poll_entity repr p now x →
          r = (c ← Legacy.refresh_body repr (Legacy.coord p) x;
               Ok {| Legacy.coord :=
                       {| Legacy.data := Legacy.data c;
                          Legacy.last_call := Some now |};
                     Legacy.entities := Legacy.entities p |})).
Proof.
  split; [reflexivity|split].
  - intros H. apply throttled_spec in H.
    unfold Legacy.poll_entity, Legacy.async_update, Legacy.async_refresh_parcels.
    rewrite (async_refresh_throttled repr _ now x H).
    destruct p; split; reflexivity.
  - intros H r Hr.
    assert (Ht : Legacy.throttled (Legacy.last_call (Legacy.coord p)) now = false).
    { destruct (Legacy.throttled _ now) eqn:E; [|reflexivity].
      apply throttled_spec in E. contradiction. }
    assert (Hr' : r = Legacy.async_refresh_parcels repr p now x)
      by (destruct Hr as [->| ->]; reflexivity).
    rewrite Hr'. unfold Legacy.async_refresh_parcels.
    rewrite (async_refresh_passed repr _ now x Ht).
    destruct (Legacy.refresh_body repr (Legacy.coord p) x); reflexivity.
Qed.

(** * The dataset after a successful fetch *)

Lemma successful_fetch_get_shipments x items :
  successful_fetch x items → Component.get_shipments x = Ok (VList items).
Proof. intros (body & -> & Hbody). simpl. rewrite Hbody. reflexivity. Qed.

Lemma parcel_data_absent (c : Legacy.coordinator) (s : Legacy.ParcelSensor) :
  Legacy.data c !! Legacy.parcel_id s = None →
  Legacy.parcel_data c s = ∅
  ∧ Legacy.state c s = VStr "unknown"
  ∧ Legacy.extra_state_attributes c s = ∅.
Proof.
  intros H. unfold Legacy.state, Legacy.extra_state_attributes, Legacy.parcel_data.
  rewrite H. simpl. rewrite lookup_empty. repeat split; reflexivity.
Qed.

(** C1 (amended): a successful fetch that the throttle lets through and whose
    shipments all carry an id replaces the legacy dataset by exactly the
    fetched list keyed by [str(id)]: every entry comes from the list, every
    shipment of the list has its entry (itself, when the ids are distinct),
    and an id absent from the list has no entry whatever the dataset held
    before.  The component's dataset is the fetched list itself.  The
    entities stay as they are: the sensor of an absent id reads no shipment,
    state ["unknown"] and no attributes. *)
Theorem refresh_replaces_dataset
  (repr : value → string) (p : Legacy.platform) (now : Z)
  (x : exchange) (items : list value) :
  Legacy.throttled (Legacy.last_call (Legacy.coord p)) now = false →
  successful_fetch x items →
  Forall has_id items →
  ∃ p', Legacy.async_refresh_parcels repr p now x = Ok p'
    ∧ Legacy.data (Legacy.coord p') = keyed_by_id repr items
    ∧ (∀ k (m : record), Legacy.data (Legacy.coord p') !! k = Some m →
         ∃ i, VDict m ∈ items ∧ m !! "id" = Some i ∧ py_str repr i = k)
    ∧ (∀ (m : record) i, VDict m ∈ items → m !! "id" = Some i →
         is_Some (Legacy.data (Legacy.coord p') !! py_str repr i))
    ∧ (NoDup (omap (keyed repr) items).*1 →
       ∀ (m : record) i, VDict m ∈ items → m !! "id" = Some i →
         Legacy.data (Legacy.coord p') !! py_str repr i = Some m)
    ∧ (∀ k, id_absent repr k items →
         Legacy.data (Legacy.coord p') !! k = None
         ∧ ∀ s, Legacy.parcel_id s = k →
             Legacy.parcel_data (Legacy.coord p') s = ∅
             ∧ Legacy.state (Legacy.coord p') s = VStr "unknown"
             ∧ Legacy.extra_state_attributes (Legacy.coord p') s = ∅)
    ∧ Legacy.entities p' = Legacy.entities p
    ∧ Component._async_update_data x = Ok (VList items)
    ∧ (∀ c, Component.async_refresh c x
            = {| Component.data := VList items;
                 Component.last_update_success := true |}).
Proof.
  intros Ht Hx Hid.
  unfold Legacy.async_refresh_parcels.
  rewrite (async_refresh_passed repr _ now x Ht).
  rewrite (refresh_body_success repr _ x items Hx Hid). simpl.
  eexists. split; [reflexivity|]. simpl.
  split; [reflexivity|].
  split; [intros k m; apply keyed_by_id_lookup_Some|].
  split; [intros m i; apply keyed_by_id_is_Some|].
  split; [intros Hnd m i; apply keyed_by_id_NoDup, Hnd|].
  split.
  { intros k Habs.
    pose proof (keyed_by_id_lookup_None repr items k Habs) as Hnone.
    split; [exact Hnone|].
    intros s <-. apply parcel_data_absent. exact Hnone. }
  split; [reflexivity|].
  unfold Component.async_refresh, Component._async_update_data.
  rewrite (successful_fetch_get_shipments x items Hx).
  split; [reflexivity|intros c; reflexivity].
Qed.

Lemma parcel_7_absent_42 : id_absent repr_unused "42" [parcel_7].
Proof.
  intros m i Hin Hi. apply list_elem_of_singleton in Hin.
  injection Hin as ->. vm_compute in Hi. injection Hi as <-.
  vm_compute. discriminate.
Qed.

Lemma refresh_replaces_dataset_witness :
  Legacy.throttled (Legacy.last_call Legacy.init) 0 = false
  ∧ successful_fetch (shipments_response [parcel_7]) [parcel_7]
  ∧ Forall has_id [parcel_7]
  ∧ ∃ p', Legacy.async_refresh_parcels repr_unused
            {| Legacy.coord := Legacy.init; Legacy.entities := [] |} 0
            (shipments_response [parcel_7]) = Ok p'
      ∧ Legacy.data (Legacy.coord p') = keyed_by_id repr_unused [parcel_7]
      ∧ Legacy.data (Legacy.coord p') !! "42" = None
      ∧ Legacy.entities p' = [].
Proof.
  assert (H1 : Legacy.throttled (Legacy.last_call Legacy.init) 0 = false)
    by reflexivity.
  assert (H2 : successful_fetch (shipments_response [parcel_7]) [parcel_7])
    by (eexists; split; [reflexivity|vm_compute; reflexivity]).
  assert (H3 : Forall has_id [parcel_7]).
  { repeat constructor. eexists _, _. split; [reflexivity|].
    vm_compute. reflexivity. }
  split; [exact H1|]. split; [exact H2|]. split; [exact H3|].
  destruct (refresh_replaces_dataset repr_unused
              {| Legacy.coord := Legacy.init; Legacy.entities := [] |} 0
              (shipments_response [parcel_7]) [parcel_7] H1 H2 H3)
    as (p' & E1 & E2 & _ & _ & _ & E6 & E7 & _).
  exists p'. split; [exact E1|]. split; [exact E2|].
  split; [exact (proj1 (E6 "42" parcel_7_absent_42))|exact E7].
Defined.

(** C1 (as stated, refuted): after two consecutive successful fetches, the
    second of which no longer has shipment 42, the dataset has no entry for
    42 but the entity created for 42 is still among the platform's entities. *)
Lemma entity_42_remains :
  ∃ p, legacy_two_fetches = Ok p
       ∧ id_absent repr_unused "42" [parcel_7]
       ∧ Legacy.data (Legacy.coord p) !! "42" = None
       ∧ ¬ no_entity_for "42" p.
Proof.
  eexists. split; [vm_compute; reflexivity|].
  split; [exact parcel_7_absent_42|].
  split; [vm_compute; reflexivity|].
  intros H.
  apply (H {| Legacy.parcel_id := "42";
              Legacy._name := "Parcel UPS 1Z999";
              Legacy._unique_id := "parcel_42" |}); [|reflexivity].
  simpl. apply list_elem_of_In. simpl. tauto.
Qed.

(** * Entities and the shipments they show *)

(** The legacy sensor reads the dataset by its own id: whatever it shows is
    the entry stored under [parcel_id]. *)
Lemma legacy_sensor_reads_by_id (c : Legacy.coordinator) (s : Legacy.ParcelSensor) :
  Legacy.parcel_data c s = default ∅ (Legacy.data c !! Legacy.parcel_id s)
  ∧ Legacy.state c s
    = default (VStr "unknown")
        (default ∅ (Legacy.data c !! Legacy.parcel_id s) !! "status").
Proof. split; reflexivity. Qed.

(** After a successful legacy refresh a sensor shows nothing or a shipment of
    the fetched list whose id prints as the sensor's id, wherever that
    shipment stands in the list. *)
Lemma legacy_sensor_bound_by_id repr (c : Legacy.coordinator) x items
  (s : Legacy.ParcelSensor) :
  successful_fetch x items → Forall has_id items →
  ∃ c', Legacy.refresh_body repr c x = Ok c'
    ∧ (Legacy.parcel_data c' s = ∅ ∧ id_absent repr (Legacy.parcel_id s) items
       ∨ ∃ i, VDict (Legacy.parcel_data c' s) ∈ items
              ∧ Legacy.parcel_data c' s !! "id" = Some i
              ∧ py_str repr i = Legacy.parcel_id s).
Proof.
  intros Hx Hid. rewrite (refresh_body_success repr c x items Hx Hid).
  eexists. split; [reflexivity|].
  unfold Legacy.parcel_data. simpl.
  destruct (keyed_by_id repr items !! Legacy.parcel_id s) as [m|] eqn:E.
  - right. apply keyed_by_id_lookup_Some in E. exact E.
  - left. split; [reflexivity|].
    intros m i Hin Hi Hk.
    destruct (keyed_by_id_is_Some repr items m i Hin Hi) as [m' Hm'].
    rewrite Hk in Hm'. congruence.
Qed.

(** C4 (the component departs from it): the entity made for shipment 1 at
    position 0 keeps the unique id and the name of shipment 1, and after an
    update on a fetch that lists the same two shipments in the other order
    its state and its [shipment_id] attribute are those of shipment 2.  The
    same happens when shipment 1 is removed and when a shipment is added in
    front. *)
Theorem component_entity_follows_position :
  entity_across_refresh [shoes; books] [books; shoes] 0
  = Ok (("parcel_delivery_1", "Parcel Delivery Shoes", VStr "delivered", Some (VInt 1)),
        ("parcel_delivery_1", "Parcel Delivery Shoes", VStr "in_transit", Some (VInt 2)))
  ∧ entity_across_refresh [shoes; books] [books] 0
    = Ok (("parcel_delivery_1", "Parcel Delivery Shoes", VStr "delivered", Some (VInt 1)),
          ("parcel_delivery_1", "Parcel Delivery Shoes", VStr "in_transit", Some (VInt 2)))
  ∧ entity_across_refresh [shoes; books] [lamp; shoes; books] 0
    = Ok (("parcel_delivery_1", "Parcel Delivery Shoes", VStr "delivered", Some (VInt 1)),
          ("parcel_delivery_1", "Parcel Delivery Shoes", VStr "pending", Some (VInt 3))).
Proof. repeat split; vm_compute; reflexivity. Qed.

(** C5 (the component departs from it): availability is decided by the
    entity's position.  The entity made for shipment 2 at position 1 reports
    unavailable after a successful refresh that still has shipment 2, now
    alone in the list; and it reports available after a successful refresh
    whose list no longer has shipment 2 but is two long. *)
Theorem component_available_by_position :
  availability_across_refresh [shoes; books] [books] 1 = Ok (true, false)
  ∧ VInt 2 ∈ ids_of [books]
  ∧ availability_across_refresh [shoes; books] [shoes; lamp] 1 = Ok (true, true)
  ∧ VInt 2 ∉ ids_of [shoes; lamp].
Proof.
  split; [vm_compute; reflexivity|].
  split; [vm_compute; apply list_elem_of_In; simpl; tauto|].
  split; [vm_compute; reflexivity|].
  vm_compute. intros H. apply list_elem_of_In in H. simpl in H.
  destruct H as [H|[H|[]]]; discriminate.
Qed.

(** * Reading a sensor *)

Lemma shipments_response_successful items :
  successful_fetch (shipments_response items) items.
Proof.
  eexists. split; [reflexivity|]. rewrite lookup_singleton_eq. reflexivity.
Qed.

Lemma component_refresh_success x items (c : Component.coordinator) :
  successful_fetch x items →
  Component.async_refresh c x
  = {| Component.data := VList items; Component.last_update_success := true |}.
Proof.
  intros Hx. unfold Component.async_refresh, Component._async_update_data.
  rewrite (successful_fetch_get_shipments x items Hx). reflexivity.
Qed.

Lemma current_shipment_out_of_range (c : Component.coordinator) l i :
  Component.data c = VList l → (length l ≤ i)%nat →
  Component.current_shipment c i = Ok (VDict ∅).
Proof.
  intros Hd Hi. unfold Component.current_shipment. rewrite Hd. simpl.
  destruct (decide (i < length l)%nat); [lia|reflexivity].
Qed.

Lemma current_shipment_in_range (c : Component.coordinator) l i v :
  Component.data c = VList l → l !! i = Some v →
  Component.current_shipment c i = Ok v.
Proof.
  intros Hd Hi. unfold Component.current_shipment. rewrite Hd. simpl.
  destruct (decide (i < length l)%nat) as [_|Hge].
  - rewrite Hi. reflexivity.
  - apply lookup_lt_Some in Hi. lia.
Qed.

(** [update_attributes] on a well-typed shipment: no exception, and every
    field read with its fallback. *)
Lemma update_attributes_typed (c : Component.coordinator)
  (s : Component.ParcelDeliverySensor) (m : record) :
  Component.current_shipment c (Component.idx s) = Ok (VDict m) →
  typed_fields m →
  Component.update_attributes c s
  = Ok {| Component.idx := Component.idx s;
          Component.shipment := Component.shipment s;
          Component._attr_unique_id := Component._attr_unique_id s;
          Component._attr_name := Component._attr_name s;
          Component._attr_icon := Component._attr_icon s;
          Component._attr_native_value := default (VStr "unknown") (m !! "status");
          Component._attr_extra_state_attributes := attributes_of m |}.
Proof.
  intros Hc [Hcar Hst]. unfold Component.update_attributes. rewrite Hc. simpl.
  unfold attributes_of, carrier_name, status_string, field_or_unknown.
  destruct (m !! "carrier") as [v|] eqn:Ec.
  - destruct (Hcar v eq_refl) as [d ->]. simpl.
    destruct (m !! "status") as [w|] eqn:Es.
    + destruct (Hst w eq_refl) as [t ->]. reflexivity.
    + reflexivity.
  - simpl. destruct (m !! "status") as [w|] eqn:Es.
    + destruct (Hst w eq_refl) as [t ->]. reflexivity.
    + reflexivity.
Qed.

Lemma typed_fields_empty : typed_fields ∅.
Proof. split; intros v H; rewrite lookup_empty in H; discriminate. Qed.

(** The component's entity shows the shipment that stands at its position in
    the fetched list, whichever id that shipment has, and keeps the unique id
    and the name it was given when it was made. *)
Lemma component_update_reads_position (c : Component.coordinator) x items
  (s : Component.ParcelDeliverySensor) (m : record) :
  successful_fetch x items →
  items !! Component.idx s = Some (VDict m) →
  typed_fields m →
  ∃ s', Component.async_update c x s
        = Ok ({| Component.data := VList items;
                 Component.last_update_success := true |}, s')
        ∧ Component.native_value s' = default (VStr "unknown") (m !! "status")
        ∧ Component.extra_state_attributes s' = attributes_of m
        ∧ Component.unique_id s' = Component.unique_id s
        ∧ Component.name s' = Component.name s.
Proof.
  intros Hx Hi Hty. unfold Component.async_update, Component.async_request_refresh.
  rewrite (component_refresh_success x items c Hx). simpl.
  pose proof (lookup_lt_Some _ _ _ Hi) as Hlt.
  destruct (decide (Component.idx s < length items)%nat); [|lia].
  rewrite Hi. simpl.
  rewrite update_attributes_typed with (m := m); [| |exact Hty].
  - simpl. eexists. split; [reflexivity|]. repeat split; reflexivity.
  - apply current_shipment_in_range with (l := items); [reflexivity|exact Hi].
Qed.


Lemma attributes_of_empty : attributes_of ∅ = unknown_attributes.
Proof. reflexivity. Qed.

Lemma copy_if_present_lookup_ne k k' (d attrs : record) :
  k ≠ k' → Legacy.copy_if_present k d attrs !! k' = attrs !! k'.
Proof.
  intros Hne. unfold Legacy.copy_if_present.
  destruct (decide (is_Some (d !! k))); [apply lookup_insert_ne, Hne|reflexivity].
Qed.

Lemma legacy_attribute_lookup (c : Legacy.coordinator) (s : Legacy.ParcelSensor) k :
  k ∈ legacy_attribute_keys →
  size (Legacy.parcel_data c s) ≠ 0%nat →
  Legacy.extra_state_attributes c s !! k
  = Some (default VNone (Legacy.parcel_data c s !! k)).
Proof.
  intros Hk Hsize. unfold Legacy.extra_state_attributes.
  destruct (decide (size (Legacy.parcel_data c s) = 0%nat)); [contradiction|].
  unfold legacy_attribute_keys in Hk.
  repeat (apply elem_of_cons in Hk as [->|Hk]);
    [..|apply elem_of_nil in Hk; contradiction];
    rewrite !copy_if_present_lookup_ne by discriminate;
    simplify_map_eq; reflexivity.
Qed.

(** C10 (amended): the legacy reads never raise: a sensor whose id has no
    entry has state ["unknown"] and no attributes, a shipment without a
    status has state ["unknown"], and an attribute whose field is missing is
    [None].  The component's [update_attributes] returns when the dataset is
    a list and the position is out of range (state ["unknown"], every
    attribute ["Unknown"], colour grey) and when the shipment at the position
    is a dict whose carrier, if any, is a dict and whose status, if any, is
    a string: the state is the status or ["unknown"], and every missing
    field reads ["Unknown"]. *)
Theorem sensor_reads_fall_back :
  (∀ (c : Legacy.coordinator) (s : Legacy.ParcelSensor),
     Legacy.data c !! Legacy.parcel_id s = None →
     Legacy.state c s = VStr "unknown" ∧ Legacy.extra_state_attributes c s = ∅)
  ∧ (∀ (c : Legacy.coordinator) (s : Legacy.ParcelSensor),
       Legacy.parcel_data c s !! "status" = None →
       Legacy.state c s = VStr "unknown")
  ∧ (∀ (c : Legacy.coordinator) (s : Legacy.ParcelSensor) k,
       k ∈ legacy_attribute_keys →
       size (Legacy.parcel_data c s) ≠ 0%nat →
       Legacy.parcel_data c s !! k = None →
       Legacy.extra_state_attributes c s !! k = Some VNone)
  ∧ (∀ (c : Component.coordinator) (s : Component.ParcelDeliverySensor) l,
       Component.data c = VList l → (length l ≤ Component.idx s)%nat →
       ∃ s', Component.update_attributes c s = Ok s'
             ∧ Component.native_value s' = VStr "unknown"
             ∧ Component.extra_state_attributes s' = unknown_attributes)
  ∧ (∀ (c : Component.coordinator) (s : Component.ParcelDeliverySensor) l
       (m : record),
       Component.data c = VList l → l !! Component.idx s = Some (VDict m) →
       typed_fields m →
       ∃ s', Component.update_attributes c s = Ok s'
             ∧ Component.native_value s' = default (VStr "unknown") (m !! "status")
             ∧ Component.extra_state_attributes s' = attributes_of m
             ∧ ∀ k, k ∈ ["name"; "tracking_number"; "status"; "last_update";
                          "estimated_delivery"; "from_location"; "to_location"] →
                 m !! k = None →
                 Component.extra_state_attributes s' !! k = Some (VStr "Unknown")).
Proof.
  split; [|split; [|split; [|split]]].
  - intros c s H. apply parcel_data_absent. exact H.
  - intros c s H. unfold Legacy.state. rewrite H. reflexivity.
  - intros c s k Hk Hsize Hnone.
    rewrite (legacy_attribute_lookup c s k Hk Hsize), Hnone. reflexivity.
  - intros c s l Hd Hlen.
    rewrite (update_attributes_typed c s ∅
               (current_shipment_out_of_range c l _ Hd Hlen) typed_fields_empty).
    eexists. split; [reflexivity|]. split; reflexivity.
  - intros c s l m Hd Hl Hty.
    rewrite (update_attributes_typed c s m
               (current_shipment_in_range c l _ _ Hd Hl) Hty).
    eexists. split; [reflexivity|]. split; [reflexivity|]. split; [reflexivity|].
    intros k Hk Hnone. simpl. unfold attributes_of, field_or_unknown.
    repeat (apply elem_of_cons in Hk as [->|Hk]);
      [..|apply elem_of_nil in Hk; contradiction];
      simpl; simplify_map_eq; reflexivity.
Qed.

(** C10 (as stated, refuted): an entity made on a well-formed fetch, then
    updated on a fetch whose shipment has a plain string for its carrier, or
    [null] for its status: [update_attributes] raises [AttributeError]. *)
Lemma update_attributes_raises :
  entity_across_refresh [shoes] [plain_carrier] 0 = Raise AttributeError
  ∧ entity_across_refresh [shoes] [null_status] 0 = Raise AttributeError.
Proof. split; vm_compute; reflexivity. Qed.

(** * The in-transit scenario *)

Lemma legacy_setup_single repr prefix now (m : record) i :
  m !! "id" = Some i →
  Legacy.async_setup_platform repr prefix now (shipments_response [VDict m])
  = Ok {| Legacy.coord :=
            {| Legacy.data := {[ py_str repr i := m ]};
               Legacy.last_call := Some now |};
          Legacy.entities :=
            [Legacy.new_sensor repr
               {| Legacy.data := {[ py_str repr i := m ]};
                  Legacy.last_call := Some now |}
               (py_str repr i) prefix] |}.
Proof.
  intros Hi. unfold Legacy.async_setup_platform.
  rewrite async_refresh_passed by reflexivity.
  rewrite (refresh_body_success repr Legacy.init _ [VDict m]
             (shipments_response_successful _)).
  2:{ repeat constructor. exists m, i. split; [reflexivity|exact Hi]. }
  unfold keyed_by_id. simpl. rewrite Hi. simpl.
  rewrite insert_empty, map_to_list_singleton. reflexivity.
Qed.

(** C7 (amended): set up on a successful fetch of one shipment with id 1 and
    status ["In_Transit"], the component's entity has the status as it came,
    ["In_Transit"], for its state and blue for its colour; the legacy
    entity's state is ["In_Transit"] too. *)
Theorem in_transit_state_and_colour
  (repr : value → string) (c0 : Component.coordinator)
  (prefix : string) (now : Z) (m : record) :
  m !! "id" = Some (VInt 1) →
  m !! "status" = Some (VStr "In_Transit") →
  (∀ v, m !! "carrier" = Some v → ∃ d : record, v = VDict d) →
  (∃ e, Component.async_setup_entry repr c0 (shipments_response [VDict m])
        = Ok {| Component.coord :=
                  {| Component.data := VList [VDict m];
                     Component.last_update_success := true |};
                Component.entities := [e] |}
        ∧ Component.native_value e = VStr "In_Transit"
        ∧ Component.extra_state_attributes e !! "status_color" = Some (VStr "blue"))
  ∧ (∃ p s, Legacy.async_setup_platform repr prefix now
              (shipments_response [VDict m]) = Ok p
            ∧ Legacy.entities p = [s]
            ∧ Legacy.parcel_id s = "1"
            ∧ Legacy.state (Legacy.coord p) s = VStr "In_Transit").
Proof.
  intros Hid Hst Hcar. split.
  - unfold Component.async_setup_entry.
    rewrite (component_refresh_success _ [VDict m] c0
               (shipments_response_successful _)).
    simpl. unfold Component.new_sensor. simpl. rewrite Hid. simpl.
    rewrite update_attributes_typed with (m := m); [|reflexivity|].
    + simpl. eexists. split; [reflexivity|]. simpl. rewrite Hst.
      split; [reflexivity|].
      unfold attributes_of, status_string. rewrite Hst.
      rewrite list_to_map_cons, lookup_insert_eq. reflexivity.
    + split; [exact Hcar|]. intros v Hv. rewrite Hst in Hv.
      injection Hv as <-. eexists. reflexivity.
  - rewrite (legacy_setup_single repr prefix now m (VInt 1) Hid).
    eexists _, _. split; [reflexivity|]. split; [reflexivity|].
    split; [reflexivity|].
    unfold Legacy.state, Legacy.parcel_data. simpl.
    change (py_str repr (VInt 1)) with "1".
    rewrite lookup_singleton_eq. simpl. rewrite Hst. reflexivity.
Qed.

Lemma in_transit_state_and_colour_witness :
  in_transit_fields !! "id" = Some (VInt 1)
  ∧ in_transit_fields !! "status" = Some (VStr "In_Transit")
  ∧ (∀ v, in_transit_fields !! "carrier" = Some v → ∃ d : record, v = VDict d)
  ∧ (∃ e, Component.async_setup_entry repr_unused fresh_coordinator
            (shipments_response [VDict in_transit_fields])
          = Ok {| Component.coord :=
                    {| Component.data := VList [VDict in_transit_fields];
                       Component.last_update_success := true |};
                  Component.entities := [e] |}
          ∧ Component.native_value e = VStr "In_Transit"
          ∧ Component.extra_state_attributes e !! "status_color" = Some (VStr "blue"))
  ∧ (∃ p s, Legacy.async_setup_platform repr_unused Legacy.DEFAULT_NAME 0
              (shipments_response [VDict in_transit_fields]) = Ok p
            ∧ Legacy.entities p = [s]
            ∧ Legacy.parcel_id s = "1"
            ∧ Legacy.state (Legacy.coord p) s = VStr "In_Transit").
Proof.
  assert (H1 : in_transit_fields !! "id" = Some (VInt 1))
    by (vm_compute; reflexivity).
  assert (H2 : in_transit_fields !! "status" = Some (VStr "In_Transit"))
    by (vm_compute; reflexivity).
  assert (H3 : ∀ v, in_transit_fields !! "carrier" = Some v → ∃ d : record, v = VDict d)
    by (intros v Hv; vm_compute in Hv; discriminate).
  split; [exact H1|]. split; [exact H2|]. split; [exact H3|].
  exact (in_transit_state_and_colour repr_unused fresh_coordinator
           Legacy.DEFAULT_NAME 0 in_transit_fields H1 H2 H3).
Defined.

(** C7 (as stated, refuted): on the fetch [{"shipments": [{"id": 1, "status":
    "In_Transit"}]}] the state of the entity is ["In_Transit"], not
    ["in_transit"], in the component and in the legacy platform; the colour
    is blue. *)
Lemma in_transit_state_keeps_case :
  component_readings [VDict in_transit_fields]
  = Ok [(VStr "In_Transit", Some (VStr "blue"))]
  ∧ component_readings [VDict in_transit_fields]
    ≠ Ok [(VStr "in_transit", Some (VStr "blue"))]
  ∧ legacy_readings [VDict in_transit_fields] = Ok [VStr "In_Transit"]
  ∧ legacy_readings [VDict in_transit_fields] ≠ Ok [VStr "in_transit"].
Proof.
  assert (Hc : component_readings [VDict in_transit_fields]
               = Ok [(VStr "In_Transit", Some (VStr "blue"))])
    by (vm_compute; reflexivity).
  assert (Hl : legacy_readings [VDict in_transit_fields] = Ok [VStr "In_Transit"])
    by (vm_compute; reflexivity).
  rewrite Hc, Hl. repeat split; discriminate.
Qed.

(** * Display names *)

Lemma update_attributes_keeps_identity (c : Component.coordinator)
  (s s' : Component.ParcelDeliverySensor) :
  Component.update_attributes c s = Ok s' →
  Component._attr_name s' = Component._attr_name s
  ∧ Component._attr_unique_id s' = Component._attr_unique_id s
  ∧ Component.idx s' = Component.idx s.
Proof.
  intros H. unfold Component.update_attributes in H.
  run_binds H. injection H as <-. repeat split; reflexivity.
Qed.

(** C8 (amended): every entry of the legacy dataset at setup gets one
    entity, whose display name is the configured prefix, the carrier and the
    tracking number of the entry, in this order and joined by single spaces
    (a missing field gives the empty string).  The name of a component
    entity is ["Parcel Delivery "] followed by the shipment's name, or by
    [#] and the position counted from one when the shipment has no name. *)
Theorem display_name_built
  (repr : value → string) (prefix : string) (now : Z) (x : exchange)
  (p : Legacy.platform) :
  Legacy.async_setup_platform repr prefix now x = Ok p →
  (∀ k, is_Some (Legacy.data (Legacy.coord p) !! k) ↔
        ∃ s, s ∈ Legacy.entities p ∧ Legacy.parcel_id s = k)
  ∧ (∀ s, s ∈ Legacy.entities p →
       Legacy.name s
       = String.concat " "
           [prefix;
            py_str repr (default (VStr "")
                           (Legacy.parcel_data (Legacy.coord p) s !! "carrier"));
            py_str repr (default (VStr "")
                           (Legacy.parcel_data (Legacy.coord p) s !! "tracking_number"))])
  ∧ (∀ s carrier tracking, s ∈ Legacy.entities p →
       Legacy.parcel_data (Legacy.coord p) s !! "carrier" = Some (VStr carrier) →
       Legacy.parcel_data (Legacy.coord p) s !! "tracking_number" = Some (VStr tracking) →
       Legacy.name s = prefix +:+ " " +:+ carrier +:+ " " +:+ tracking)
  ∧ (∀ (c : Component.coordinator) i (m : record) e,
       Component.new_sensor repr c i (VDict m) = Ok e →
       Component.name e
       = "Parcel Delivery "
         +:+ py_str repr (default (VStr ("#" +:+ pretty (Z.of_nat i + 1)))
                            (m !! "name"))).
Proof.
  intros H. unfold Legacy.async_setup_platform in H.
  destruct (Legacy.async_refresh repr Legacy.init now x) as [c|e];
    simpl in H; [|discriminate].
  injection H as <-. simpl.
  assert (Hname : ∀ s, s ∈ (λ pid, Legacy.new_sensor repr c pid prefix)
                             <$> (map_to_list (Legacy.data c)).*1 →
            Legacy.name s
            = String.concat " "
                [prefix;
                 py_str repr (default (VStr "") (Legacy.parcel_data c s !! "carrier"));
                 py_str repr (default (VStr "")
                                (Legacy.parcel_data c s !! "tracking_number"))]).
  { intros s Hs. apply list_elem_of_fmap in Hs as (pid & -> & _). reflexivity. }
  split; [|split; [exact Hname|split]].
  - intros k. split.
    + intros [m Hm]. exists (Legacy.new_sensor repr c k prefix).
      split; [|reflexivity].
      apply list_elem_of_fmap. exists k. split; [reflexivity|].
      apply list_elem_of_fmap. exists (k, m). split; [reflexivity|].
      apply elem_of_map_to_list. exact Hm.
    + intros (s & Hs & <-).
      apply list_elem_of_fmap in Hs as (pid & -> & Hpid).
      apply list_elem_of_fmap in Hpid as ([k m] & -> & Hkm).
      apply elem_of_map_to_list in Hkm. exists m. exact Hkm.
  - intros s carrier tracking Hs Hc Ht.
    rewrite (Hname s Hs), Hc, Ht. reflexivity.
  - intros c' i m e He. unfold Component.new_sensor in He. simpl in He.
    apply update_attributes_keeps_identity in He as (Hn & _ & _).
    unfold Component.name. rewrite Hn. reflexivity.
Qed.

Lemma display_name_built_witness :
  ∃ p, Legacy.async_setup_platform repr_unused Legacy.DEFAULT_NAME 0
         (shipments_response [parcel_42]) = Ok p
       ∧ (∀ s carrier tracking, s ∈ Legacy.entities p →
            Legacy.parcel_data (Legacy.coord p) s !! "carrier" = Some (VStr carrier) →
            Legacy.parcel_data (Legacy.coord p) s !! "tracking_number"
            = Some (VStr tracking) →
            Legacy.name s = Legacy.DEFAULT_NAME +:+ " " +:+ carrier +:+ " " +:+ tracking).
Proof.
  eexists. split; [vm_compute; reflexivity|].
  eapply (display_name_built repr_unused Legacy.DEFAULT_NAME 0
            (shipments_response [parcel_42])).
  vm_compute. reflexivity.
Defined.

(** C8 (as stated, refuted): the legacy name of the entity of shipment 42
    (carrier UPS, tracking number 1Z999) under the prefix Parcel is
    ["Parcel UPS 1Z999"], which is not the three strings put end to end; the
    component's name of a shipment named Shoes is ["Parcel Delivery Shoes"],
    in which neither the carrier nor the tracking number occurs. *)
Lemma display_name_not_concatenation :
  legacy_names [parcel_42] = Ok ["Parcel UPS 1Z999"]
  ∧ legacy_names [parcel_42] ≠ Ok ["Parcel" +:+ "UPS" +:+ "1Z999"]
  ∧ component_names [tracked_shoes] = Ok ["Parcel Delivery Shoes"]
  ∧ contains "UPS" "Parcel Delivery Shoes" = false
  ∧ contains "1Z999" "Parcel Delivery Shoes" = false.
Proof.
  assert (Hl : legacy_names [parcel_42] = Ok ["Parcel UPS 1Z999"])
    by (vm_compute; reflexivity).
  rewrite Hl.
  split; [reflexivity|]. split; [discriminate|].
  split; [vm_compute; reflexivity|]. split; reflexivity.
Qed.

(** * The API client and the config flow *)

(** X1: [get_shipments] returns exactly when the status is 200 and the
    decoded body is a dict, and what it returns is the body's [shipments]
    field as it is, list or not, or the empty list when the body has none. *)
Theorem get_shipments_returns_iff (x : exchange) (v : value) :
  Component.get_shipments x = Ok v
  ↔ ∃ body : record,
      x = Response 200 (Ok (VDict body))
      ∧ v = default (VList []) (body !! "shipments").
Proof.
  split.
  - destruct x as [status json|f]; simpl; [|discriminate].
    destruct (Z.eqb_spec status 200) as [->|_]; simpl; [|discriminate].
    destruct json as [[| | | | |body]|e]; simpl; try discriminate.
    intros [= <-]. exists body. split; reflexivity.
  - intros (body & -> & ->). reflexivity.
Qed.

(** X2: [_async_update_data] returns what [get_shipments] returns, and the
    only exception that leaves it is [UpdateFailed], around the exception
    [get_shipments] raised: that of the network failure, the one for a status
    other than 200, the decoder's, or [AttributeError] for a body that is
    not a dict. *)
Theorem update_data_raises_only_update_failed (x : exchange) :
  (∀ v, Component._async_update_data x = Ok v ↔ Component.get_shipments x = Ok v)
  ∧ (∀ e, Component._async_update_data x = Raise e
          ↔ ∃ cause, e = UpdateFailed cause
                     ∧ Component.get_shipments x = Raise cause)
  ∧ (∀ cause, Component.get_shipments x = Raise cause
       ↔ (∃ f, x = Failed f ∧ cause = exn_of f)
         ∨ (∃ status json, x = Response status json ∧ status ≠ 200
              ∧ cause = PlainException
                          ("Error fetching shipments: " +:+ pretty status))
         ∨ x = Response 200 (Raise cause)
         ∨ (∃ v, x = Response 200 (Ok v) ∧ (∀ m, v ≠ VDict m)
                 ∧ cause = AttributeError)).
Proof.
  unfold Component._async_update_data. split; [|split].
  - intros v. destruct (Component.get_shipments x); split; congruence.
  - intros e. destruct (Component.get_shipments x) as [v|cause]; split.
    + discriminate.
    + intros (cause & _ & H). discriminate.
    + intros [= <-]. exists cause. split; reflexivity.
    + intros (cause' & -> & [= ->]). reflexivity.
  - intros cause. split.
    + destruct x as [status json|f]; simpl.
      * destruct (Z.eqb_spec status 200) as [->|Hne]; simpl.
        -- destruct json as [v|e]; simpl.
           ++ destruct v; simpl; try discriminate; intros [= <-];
                do 3 right; eexists; (split; [reflexivity|]);
                (split; [intros m; discriminate|reflexivity]).
           ++ intros [= <-]. right. right. left. reflexivity.
        -- intros [= <-]. right. left. exists status, json.
           split; [reflexivity|]. split; [exact Hne|reflexivity].
      * intros [= <-]. left. exists f. split; reflexivity.
    + intros [(f & -> & ->)|[(status & json & -> & Hne & ->)|[->|(v & -> & Hv & ->)]]].
      * reflexivity.
      * simpl. destruct (Z.eqb_spec status 200); [contradiction|reflexivity].
      * reflexivity.
      * destruct v; try reflexivity. exfalso. exact (Hv m eq_refl).
Qed.

(** X3: the user step of the config flow.  Without input it shows the empty
    form.  With a key it creates the entry, titled "Parcel Deliveries" and
    holding the key, exactly when the validating fetch answers 200 with a
    dict for its body; on every other exchange, a connection error and a
    timeout included, it shows the form with the error [invalid_auth], and
    never with [cannot_connect]. *)
Theorem config_flow_user_step (x : exchange) :
  ConfigFlow.async_step_user None x = Ok (ConfigFlow.ShowForm "user" ∅)
  ∧ (∀ (input : record) key, input !! "api_key" = Some key →
       ((∃ body : record, x = Response 200 (Ok (VDict body))) →
        ConfigFlow.async_step_user (Some input) x
        = Ok (ConfigFlow.CreateEntry "Parcel Deliveries" {[ "api_key" := key ]}))
       ∧ (¬ (∃ body : record, x = Response 200 (Ok (VDict body))) →
          ConfigFlow.async_step_user (Some input) x
          = Ok (ConfigFlow.ShowForm "user" {[ "base" := "invalid_auth" ]})))
  ∧ (∀ input step errors,
       ConfigFlow.async_step_user input x = Ok (ConfigFlow.ShowForm step errors) →
       errors !! "base" ≠ Some "cannot_connect")
  ∧ (∀ input : record, input !! "api_key" = None →
       ConfigFlow.async_step_user (Some input) x = Raise KeyError).
Proof.
  assert (Hv : Component.validate_api_key x = true
               ↔ ∃ body : record, x = Response 200 (Ok (VDict body))).
  { unfold Component.validate_api_key.
    destruct x as [status json|f]; simpl.
    - destruct (Z.eqb_spec status 200) as [->|Hne]; simpl.
      + destruct json as [v|e]; simpl.
        * destruct v as [| | | | |body]; simpl;
            try (split; [discriminate|intros (body' & [=])]).
          split; [intros _; exists body; reflexivity|reflexivity].
        * split; [discriminate|intros (body' & [=])].
      + split; [discriminate|]. intros (body & [= ->]). contradiction.
    - split; [discriminate|]. intros (body & [=]). }
  split; [reflexivity|]. split; [|split].
  - intros input key Hk. unfold ConfigFlow.async_step_user, ConfigFlow.CONF_API_KEY.
    rewrite Hk. split; intros H.
    + apply Hv in H. rewrite H. reflexivity.
    + destruct (Component.validate_api_key x) eqn:E; [|reflexivity].
      exfalso. apply H, Hv. reflexivity.
  - intros [input|] step errors; unfold ConfigFlow.async_step_user.
    + destruct (input !! ConfigFlow.CONF_API_KEY); [|discriminate].
      destruct (Component.validate_api_key x); [discriminate|].
      intros [= <- <-]. rewrite lookup_singleton_eq. discriminate.
    + intros [= <- <-]. rewrite lookup_empty. discriminate.
  - intros input Hk. unfold ConfigFlow.async_step_user, ConfigFlow.CONF_API_KEY.
    rewrite Hk. reflexivity.
Qed.

(** * The legacy refresh: errors, invariant, throttle *)

Lemma by_id_inv repr (items : list value) (acc : gmap string record) :
  match Legacy.by_id repr items acc with
  | Ok _ => Forall has_id items
  | Raise e => ¬ Forall has_id items ∧ (e = KeyError ∨ e = TypeError)
  end.
Proof.
  revert acc; induction items as [|v items IH]; intros acc; simpl.
  - constructor.
  - assert (Hno : ∀ e, (∀ m : record, v = VDict m → m !! "id" = None) →
              (e = KeyError ∨ e = TypeError) →
              ¬ Forall has_id (v :: items) ∧ (e = KeyError ∨ e = TypeError)).
    { intros e Hv He. split; [|exact He].
      intros H. apply Forall_cons in H as [(m & i & -> & Hi) _].
      rewrite (Hv m eq_refl) in Hi. discriminate. }
    destruct v as [| | | | |m]; try (apply Hno; [intros m [=]|tauto]).
    destruct (m !! "id") as [i|] eqn:Hi.
    + specialize (IH (<[py_str repr i := m]> acc)).
      destruct (Legacy.by_id repr items _) as [d|e].
      * constructor; [exists m, i; split; [reflexivity|exact Hi]|exact IH].
      * destruct IH as [Hn He]. split; [|exact He].
        intros H. apply Forall_cons in H as [_ H]. exact (Hn H).
    + apply Hno; [intros m' [= <-]; exact Hi|tauto].
Qed.

(** X4: on a response with status 200 whose [shipments] is a list, the legacy
    refresh stores the dataset exactly when every shipment is a dict with an
    id.  Otherwise it raises [KeyError] (a dict without id) or [TypeError]
    (not a dict), which its handler does not catch, and stores nothing. *)
Theorem legacy_refresh_needs_ids
  (repr : value → string) (c : Legacy.coordinator) (x : exchange)
  (items : list value) :
  successful_fetch x items →
  (Forall has_id items ↔ ∃ c', Legacy.refresh_body repr c x = Ok c')
  ∧ (¬ Forall has_id items ↔
     Legacy.refresh_body repr c x = Raise KeyError
     ∨ Legacy.refresh_body repr c x = Raise TypeError).
Proof.
  intros (body & -> & Hbody). unfold Legacy.refresh_body. simpl.
  rewrite Hbody. simpl.
  pose proof (by_id_inv repr items ∅) as H.
  destruct (Legacy.by_id repr items ∅) as [d|e]; simpl.
  - split; split.
    + intros _. eexists. reflexivity.
    + intros _. exact H.
    + intros Hn. contradiction.
    + intros [[=]|[=]].
  - destruct H as [Hn [-> | ->]]; simpl; (split; split);
      try (intros H; contradiction); try (intros (c' & [=])); tauto.
Qed.

Lemma legacy_refresh_needs_ids_witness :
  successful_fetch (shipments_response [VDict ∅]) [VDict ∅]
  ∧ ¬ Forall has_id [VDict ∅]
  ∧ Legacy.refresh_body repr_unused Legacy.init (shipments_response [VDict ∅])
    = Raise KeyError.
Proof.
  pose proof (shipments_response_successful [VDict ∅]) as Hs.
  assert (Hn : ¬ Forall has_id [VDict ∅]).
  { intros H. apply Forall_cons in H as [(m & i & [= <-] & Hi) _].
    rewrite lookup_empty in Hi. discriminate. }
  split; [exact Hs|]. split; [exact Hn|].
  destruct (proj1 (proj2 (legacy_refresh_needs_ids repr_unused Legacy.init
                            (shipments_response [VDict ∅]) [VDict ∅] Hs)) Hn)
    as [H|H]; [exact H|].
  vm_compute in H. discriminate.
Defined.

(** X5: what the legacy refresh does with a response of status 200 that is
    not the expected document.  A failure of the decoder that is a client
    error is swallowed and the coordinator stays as it is; any other
    exception of the decoder leaves the refresh.  A body that is not a dict
    raises [AttributeError], a [shipments] field that is [null], a boolean or
    a number raises [TypeError], and a body without the field empties the
    dataset. *)
Theorem legacy_refresh_odd_bodies
  (repr : value → string) (c : Legacy.coordinator) :
  Legacy.refresh_body repr c (Response 200 (Raise ClientError)) = Ok c
  ∧ (∀ e, e ≠ ClientError → e ≠ TimeoutError →
       Legacy.refresh_body repr c (Response 200 (Raise e)) = Raise e)
  ∧ (∀ v, (∀ m, v ≠ VDict m) →
       Legacy.refresh_body repr c (Response 200 (Ok v)) = Raise AttributeError)
  ∧ (∀ (body : record) v, body !! "shipments" = Some v → not_iterable v →
       Legacy.refresh_body repr c (Response 200 (Ok (VDict body))) = Raise TypeError)
  ∧ (∀ body : record, body !! "shipments" = None →
       Legacy.refresh_body repr c (Response 200 (Ok (VDict body)))
       = Ok {| Legacy.data := ∅; Legacy.last_call := Legacy.last_call c |}).
Proof.
  unfold Legacy.refresh_body. simpl.
  split; [reflexivity|]. split; [|split; [|split]].
  - intros e H1 H2. destruct e; try reflexivity; contradiction.
  - intros v Hv. destruct v; try reflexivity. exfalso. exact (Hv m eq_refl).
  - intros body v Hb Hv. rewrite Hb. destruct v; simpl in Hv; try contradiction;
      reflexivity.
  - intros body Hb. rewrite Hb. reflexivity.
Qed.

Lemma by_id_keys repr (items : list value) (acc d : gmap string record) :
  Legacy.by_id repr items acc = Ok d →
  (∀ k (m : record), acc !! k = Some m →
     ∃ i, m !! "id" = Some i ∧ py_str repr i = k) →
  ∀ k (m : record), d !! k = Some m →
    ∃ i, m !! "id" = Some i ∧ py_str repr i = k.
Proof.
  revert acc; induction items as [|v items IH]; intros acc; simpl.
  - intros [= <-] H. exact H.
  - destruct v as [| | | | |m0]; try discriminate.
    destruct (m0 !! "id") as [i0|] eqn:Hi0; [|discriminate].
    intros Hd Hacc. apply (IH _ Hd).
    intros k m Hk. destruct (decide (py_str repr i0 = k)) as [<-|Hne].
    + rewrite lookup_insert_eq in Hk. injection Hk as <-.
      exists i0. split; [exact Hi0|reflexivity].
    + rewrite lookup_insert_ne in Hk by exact Hne. exact (Hacc k m Hk).
Qed.

Lemma refresh_body_data repr (c c' : Legacy.coordinator) x :
  Legacy.refresh_body repr c x = Ok c' →
  Legacy.last_call c' = Legacy.last_call c
  ∧ (Legacy.data c' = Legacy.data c
     ∨ ∃ items, Legacy.by_id repr items ∅ = Ok (Legacy.data c')).
Proof.
  unfold Legacy.refresh_body.
  destruct x as [status json|[]]; simpl; try (intros [= <-]; tauto).
  destruct (status =? 200); simpl;
    [|destruct json as [v|e]; simpl;
      [intros [= <-]; tauto|destruct e; try discriminate; intros [= <-]; tauto]].
  destruct json as [body|e]; simpl.
  - destruct (py_get body "shipments" (VList [])) as [shipments|e]; simpl.
    + destruct (py_iter shipments) as [items|e]; simpl.
      * destruct (Legacy.by_id repr items ∅) as [d|e] eqn:E; simpl.
        -- intros [= <-]. split; [reflexivity|]. right. exists items. exact E.
        -- destruct e; try discriminate; intros [= <-]; tauto.
      * destruct e; try discriminate; intros [= <-]; tauto.
    + destruct e; try discriminate; intros [= <-]; tauto.
  - destruct e; try discriminate; intros [= <-]; tauto.
Qed.

Lemma async_refresh_keys_match repr (c c' : Legacy.coordinator) now x :
  keys_match repr c → Legacy.async_refresh repr c now x = Ok c' →
  keys_match repr c'.
Proof.
  intros Hc. unfold Legacy.async_refresh.
  destruct (Legacy.throttled (Legacy.last_call c) now); [intros [= <-]; exact Hc|].
  destruct (Legacy.refresh_body repr c x) as [c1|e] eqn:E; simpl; [|discriminate].
  intros [= <-]. apply refresh_body_data in E as [_ [Hd|(items & Hd)]];
    unfold keys_match; simpl.
  - rewrite Hd. exact Hc.
  - apply (by_id_keys repr items ∅ _ Hd).
    intros k m Hk. rewrite lookup_empty in Hk. discriminate.
Qed.

Lemma refresh_calls_inv repr (P : Legacy.platform → Prop) :
  (∀ p now x p', P p → Legacy.async_refresh_parcels repr p now x = Ok p' → P p') →
  ∀ calls p p', P p → refresh_calls repr p calls = Ok p' → P p'.
Proof.
  intros Hstep calls. induction calls as [|[now x] calls IH]; intros p p' Hp; simpl.
  - intros [= <-]. exact Hp.
  - destruct (Legacy.async_refresh_parcels repr p now x) as [p1|e] eqn:E;
      simpl; [|discriminate].
    apply IH. exact (Hstep p now x p1 Hp E).
Qed.

Lemma async_refresh_parcels_inv repr (p p' : Legacy.platform) now x :
  Legacy.async_refresh_parcels repr p now x = Ok p' →
  Legacy.async_refresh repr (Legacy.coord p) now x = Ok (Legacy.coord p')
  ∧ Legacy.entities p' = Legacy.entities p.
Proof.
  unfold Legacy.async_refresh_parcels.
  destruct (Legacy.async_refresh repr (Legacy.coord p) now x); simpl;
    [|discriminate].
  intros [= <-]. split; reflexivity.
Qed.

(** X6: the legacy dataset keeps an invariant: every entry is stored under
    the printed id of its own shipment.  It holds when the coordinator is
    made, every call of [async_refresh] that returns keeps it, throttled or
    not and whatever the exchange, and so does every run of the refresh
    service.  Under it a sensor has no attributes exactly when the dataset
    has no entry for its id, and otherwise shows a shipment whose id prints
    as the sensor's. *)
Theorem legacy_keys_match_invariant (repr : value → string) :
  keys_match repr Legacy.init
  ∧ (∀ c now x c', keys_match repr c →
       Legacy.async_refresh repr c now x = Ok c' → keys_match repr c')
  ∧ (∀ p calls p', keys_match repr (Legacy.coord p) →
       refresh_calls repr p calls = Ok p' → keys_match repr (Legacy.coord p'))
  ∧ (∀ c s, keys_match repr c →
       (Legacy.extra_state_attributes c s = ∅
        ↔ Legacy.data c !! Legacy.parcel_id s = None)
       ∧ (∀ m : record, Legacy.data c !! Legacy.parcel_id s = Some m →
            Legacy.parcel_data c s = m
            ∧ ∃ i, m !! "id" = Some i ∧ py_str repr i = Legacy.parcel_id s)).
Proof.
  split; [|split; [|split]].
  - intros k m H. unfold Legacy.init in H. simpl in H.
    rewrite lookup_empty in H. discriminate.
  - intros c now x c' Hc H. exact (async_refresh_keys_match repr c c' now x Hc H).
  - intros p calls p'.
    apply (refresh_calls_inv repr (λ p, keys_match repr (Legacy.coord p))).
    intros q now x q' Hq H. apply async_refresh_parcels_inv in H as [H _].
    exact (async_refresh_keys_match repr _ _ now x Hq H).
  - intros c s Hc. split; [split|].
    + intros Hattrs.
      destruct (Legacy.data c !! Legacy.parcel_id s) as [m|] eqn:E; [|reflexivity].
      exfalso. destruct (Hc _ m E) as (i & Hi & _).
      assert (Hsize : size (Legacy.parcel_data c s) ≠ 0%nat).
      { unfold Legacy.parcel_data. rewrite E. simpl. intros Hz.
        apply map_size_empty_iff in Hz. rewrite Hz, lookup_empty in Hi.
        discriminate. }
      assert (Hk : "carrier" ∈ legacy_attribute_keys)
        by (unfold legacy_attribute_keys; apply list_elem_of_In; simpl; tauto).
      pose proof (legacy_attribute_lookup c s "carrier" Hk Hsize) as Hl.
      rewrite Hattrs, lookup_empty in Hl. discriminate.
    + intros H. apply parcel_data_absent. exact H.
    + intros m E. split; [unfold Legacy.parcel_data; rewrite E; reflexivity|].
      exact (Hc _ m E).
Qed.

(** X7: the throttle of the legacy refresh.  A call that the throttle lets
    through at time [t] and that returns records [t], also when its fetch
    failed (the dataset is then unchanged).  Every call that comes no more
    than 1800 seconds after [t] is then dropped: it returns the coordinator
    as it is, whatever it would have fetched.  A call that comes later runs
    the refresh. *)
Theorem throttle_drops_calls_within_interval
  (repr : value → string) (c c' : Legacy.coordinator) (t : Z) (x : exchange) :
  Legacy.throttled (Legacy.last_call c) t = false →
  Legacy.async_refresh repr c t x = Ok c' →
  Legacy.last_call c' = Some t
  ∧ (fetch_failure x → Legacy.data c' = Legacy.data c)
  ∧ (∀ now x', now - t ≤ 1800 → Legacy.async_refresh repr c' now x' = Ok c')
  ∧ (∀ now x', 1800 < now - t →
       Legacy.async_refresh repr c' now x'
       = (c'' ← Legacy.refresh_body repr c' x';
          Ok {| Legacy.data := Legacy.data c''; Legacy.last_call := Some now |})).
Proof.
  intros Ht Hc.
  pose proof Hc as Hc0.
  rewrite (async_refresh_passed repr c t x Ht) in Hc.
  destruct (Legacy.refresh_body repr c x) as [c1|e] eqn:E; simpl in Hc;
    [|discriminate].
  injection Hc as <-. simpl.
  split; [reflexivity|]. split; [|split].
  - intros Hf. rewrite (refresh_body_failure_inv repr c c1 x Hf E).
    reflexivity.
  - intros now x' Hnow.
    exact (call_within_interval_dropped repr c _ t x now x' Ht Hc0 Hnow).
  - intros now x' Hnow. apply async_refresh_passed. simpl.
    apply negb_false_iff, Z.ltb_lt. exact Hnow.
Qed.

Lemma throttle_drops_calls_within_interval_witness :
  Legacy.throttled (Legacy.last_call Legacy.init) 0 = false
  ∧ Legacy.async_refresh repr_unused Legacy.init 0 (Failed TimedOut)
    = Ok {| Legacy.data := ∅; Legacy.last_call := Some 0 |}
  ∧ Legacy.async_refresh repr_unused
      {| Legacy.data := ∅; Legacy.last_call := Some 0 |} 1800
      (shipments_response [parcel_7])
    = Ok {| Legacy.data := ∅; Legacy.last_call := Some 0 |}.
Proof.
  assert (H1 : Legacy.throttled (Legacy.last_call Legacy.init) 0 = false)
    by reflexivity.
  assert (H2 : Legacy.async_refresh repr_unused Legacy.init 0 (Failed TimedOut)
               = Ok {| Legacy.data := ∅; Legacy.last_call := Some 0 |})
    by reflexivity.
  split; [exact H1|]. split; [exact H2|].
  apply (throttle_drops_calls_within_interval repr_unused Legacy.init _ 0
           (Failed TimedOut) H1 H2).
  lia.
Defined.

(** * The legacy entities *)

Lemma legacy_setup_inv repr prefix now x (p : Legacy.platform) :
  Legacy.async_setup_platform repr prefix now x = Ok p →
  Legacy.async_refresh repr Legacy.init now x = Ok (Legacy.coord p)
  ∧ Legacy.entities p
    = (λ pid, Legacy.new_sensor repr (Legacy.coord p) pid prefix)
        <$> (map_to_list (Legacy.data (Legacy.coord p))).*1.
Proof.
  unfold Legacy.async_setup_platform.
  destruct (Legacy.async_refresh repr Legacy.init now x) as [c|e]; simpl;
    [|discriminate].
  intros [= <-]. split; reflexivity.
Qed.

Lemma legacy_setup_entity_keys repr prefix now x (p : Legacy.platform) s :
  Legacy.async_setup_platform repr prefix now x = Ok p →
  s ∈ Legacy.entities p →
  is_Some (Legacy.data (Legacy.coord p) !! Legacy.parcel_id s)
  ∧ Legacy.unique_id s = "parcel_" +:+ Legacy.parcel_id s.
Proof.
  intros H Hs. apply legacy_setup_inv in H as [_ He]. rewrite He in Hs.
  apply list_elem_of_fmap in Hs as (pid & -> & Hpid).
  apply list_elem_of_fmap in Hpid as ([k m] & -> & Hkm).
  apply elem_of_map_to_list in Hkm. split; [exists m; exact Hkm|reflexivity].
Qed.

Lemma refresh_calls_entities repr (p p' : Legacy.platform) calls :
  refresh_calls repr p calls = Ok p' → Legacy.entities p' = Legacy.entities p.
Proof.
  apply (refresh_calls_inv repr (λ q, Legacy.entities q = Legacy.entities p));
    [|reflexivity].
  intros q now x q' Hq H. apply async_refresh_parcels_inv in H as [_ H].
  congruence.
Qed.

(** X8: the legacy platform makes its entities once.  After the setup and
    any run of the refresh service the entities are those of the setup: an
    id that had no entry in the dataset at setup has no entity, whatever the
    later fetches brought, and a setup whose fetch failed has no entity at
    all. *)
Theorem legacy_entities_fixed_at_setup
  (repr : value → string) (prefix : string) (t0 : Z) (x0 : exchange)
  (p0 : Legacy.platform) (calls : list (Z * exchange)) (p' : Legacy.platform) :
  Legacy.async_setup_platform repr prefix t0 x0 = Ok p0 →
  refresh_calls repr p0 calls = Ok p' →
  Legacy.entities p' = Legacy.entities p0
  ∧ (∀ k, Legacy.data (Legacy.coord p0) !! k = None → no_entity_for k p')
  ∧ (fetch_failure x0 → Legacy.entities p' = []).
Proof.
  intros H0 Hcalls.
  pose proof (refresh_calls_entities repr p0 p' calls Hcalls) as He.
  split; [exact He|]. split.
  - intros k Hk s Hs Hid. rewrite He in Hs.
    destruct (legacy_setup_entity_keys repr prefix t0 x0 p0 s H0 Hs) as [[m Hm] _].
    rewrite Hid in Hm. congruence.
  - intros Hf. rewrite He.
    apply legacy_setup_inv in H0 as [Hr ->].
    rewrite async_refresh_passed in Hr by reflexivity.
    destruct (Legacy.refresh_body repr Legacy.init x0) as [c1|e] eqn:E;
      simpl in Hr; [|discriminate].
    rewrite (refresh_body_failure_inv repr Legacy.init c1 x0 Hf E) in Hr.
    injection Hr as <-. reflexivity.
Qed.

Lemma legacy_entities_fixed_at_setup_witness :
  ∃ p0 p',
    Legacy.async_setup_platform repr_unused Legacy.DEFAULT_NAME 0
      (shipments_response [parcel_7]) = Ok p0
    ∧ refresh_calls repr_unused p0
        [(3600, shipments_response [parcel_42; parcel_7])] = Ok p'
    ∧ is_Some (Legacy.data (Legacy.coord p') !! "42")
    ∧ no_entity_for "42" p'.
Proof.
  eexists _, _.
  split; [vm_compute; reflexivity|].
  split; [vm_compute; reflexivity|].
  split; [vm_compute; eexists; reflexivity|].
  eapply (legacy_entities_fixed_at_setup repr_unused Legacy.DEFAULT_NAME 0
            (shipments_response [parcel_7]) _
            [(3600, shipments_response [parcel_42; parcel_7])]).
  - vm_compute. reflexivity.
  - vm_compute. reflexivity.
  - vm_compute. reflexivity.
Defined.

Lemma parcel_prefix_inj : Inj (=) (=) (λ pid : string, "parcel_" +:+ pid).
Proof. intros a b H. cbv in H. congruence. Qed.

(** X9: the entities the legacy setup makes have pairwise distinct unique
    ids, each the text [parcel_] followed by the entity's id, and each id is
    a key of the dataset. *)
Theorem legacy_unique_ids_distinct
  (repr : value → string) (prefix : string) (now : Z) (x : exchange)
  (p : Legacy.platform) :
  Legacy.async_setup_platform repr prefix now x = Ok p →
  NoDup (Legacy.unique_id <$> Legacy.entities p)
  ∧ NoDup (Legacy.parcel_id <$> Legacy.entities p)
  ∧ length (Legacy.entities p) = size (Legacy.data (Legacy.coord p))
  ∧ ∀ s, s ∈ Legacy.entities p →
      Legacy.unique_id s = "parcel_" +:+ Legacy.parcel_id s
      ∧ is_Some (Legacy.data (Legacy.coord p) !! Legacy.parcel_id s).
Proof.
  intros H. pose proof (legacy_setup_inv repr prefix now x p H) as [_ He].
  assert (Hids : Legacy.parcel_id <$> Legacy.entities p
                 = (map_to_list (Legacy.data (Legacy.coord p))).*1).
  { rewrite He, <- list_fmap_compose. apply list_fmap_id. }
  assert (Huids : Legacy.unique_id <$> Legacy.entities p
                  = (λ pid : string, "parcel_" +:+ pid)
                      <$> (map_to_list (Legacy.data (Legacy.coord p))).*1).
  { rewrite He, <- list_fmap_compose. reflexivity. }
  split; [|split; [|split]].
  - rewrite Huids. apply (NoDup_fmap_2 _), NoDup_fst_map_to_list.
  - rewrite Hids. apply NoDup_fst_map_to_list.
  - rewrite He, !length_fmap, length_map_to_list. reflexivity.
  - intros s Hs.
    destruct (legacy_setup_entity_keys repr prefix now x p s H Hs) as [H1 H2].
    split; [exact H2|exact H1].
Qed.

Lemma legacy_unique_ids_distinct_witness :
  ∃ p, Legacy.async_setup_platform repr_unused Legacy.DEFAULT_NAME 0
         (shipments_response [parcel_42; parcel_7]) = Ok p
       ∧ NoDup (Legacy.unique_id <$> Legacy.entities p)
       ∧ length (Legacy.entities p) = 2%nat.
Proof.
  eexists. split; [vm_compute; reflexivity|].
  destruct (legacy_unique_ids_distinct repr_unused Legacy.DEFAULT_NAME 0
              (shipments_response [parcel_42; parcel_7]) _
              ltac:(vm_compute; reflexivity)) as (H1 & _ & _ & _).
  split; [exact H1|reflexivity].
Defined.

(** * The legacy icon and attributes *)

(** X10: the legacy icon is chosen by the whole lowercased status, not by a
    pattern inside it: it is the icon the table has for the lowercased
    status and the plain package icon for every other string, also when the
    shipment has no status.  A status that is not a string makes the read
    raise [AttributeError], while the state reads that status without
    raising. *)
Theorem legacy_icon_by_whole_status
  (c : Legacy.coordinator) (s : Legacy.ParcelSensor) :
  (∀ st, Legacy.parcel_data c s !! "status" = Some (VStr st) →
     Legacy.icon c s = Ok (default default_icon (icon_table !! lower st))
     ∧ (Legacy.icon c s = Ok "mdi:package-variant-closed-check"
        ↔ lower st = "delivered")
     ∧ (Legacy.icon c s = Ok "mdi:alert-circle"
        ↔ lower st = "exception" ∨ lower st = "failure"))
  ∧ (Legacy.parcel_data c s !! "status" = None →
       Legacy.icon c s = Ok default_icon)
  ∧ (∀ v, Legacy.parcel_data c s !! "status" = Some v → (∀ st, v ≠ VStr st) →
       Legacy.icon c s = Raise AttributeError ∧ Legacy.state c s = v).
Proof.
  split; [|split].
  - intros st Hst. unfold Legacy.icon. rewrite Hst. simpl.
    destruct (String.eqb_spec (lower st) "delivered") as [->|H1];
      [split; [reflexivity|]; split; split; try reflexivity; try discriminate;
       intros [|]; discriminate|].
    destruct (String.eqb_spec (lower st) "in_transit") as [->|H2];
      [split; [reflexivity|]; split; split; try discriminate;
       intros [|]; discriminate|].
    destruct (String.eqb_spec (lower st) "out_for_delivery") as [->|H3];
      [split; [reflexivity|]; split; split; try discriminate;
       intros [|]; discriminate|].
    destruct (String.eqb_spec (lower st) "exception") as [->|H4];
      [split; [reflexivity|]; split; split; try discriminate;
       try tauto; reflexivity|].
    destruct (String.eqb_spec (lower st) "failure") as [->|H5];
      [split; [reflexivity|]; split; split; try discriminate;
       try tauto; reflexivity|].
    simpl. split; [|split; split; try discriminate; tauto].
    unfold icon_table. simpl.
    rewrite !lookup_insert_ne by congruence. rewrite lookup_empty. reflexivity.
  - intros H. unfold Legacy.icon. rewrite H. reflexivity.
  - intros v H Hv. unfold Legacy.icon, Legacy.state. rewrite H. simpl.
    split; [|reflexivity].
    destruct v; try reflexivity. exfalso. exact (Hv s0 eq_refl).
Qed.

Lemma legacy_optional_lookup (c : Legacy.coordinator) (s : Legacy.ParcelSensor) k :
  k ∈ legacy_optional_keys →
  size (Legacy.parcel_data c s) ≠ 0%nat →
  Legacy.extra_state_attributes c s !! k = Legacy.parcel_data c s !! k.
Proof.
  intros Hk Hsize. unfold Legacy.extra_state_attributes.
  destruct (decide (size (Legacy.parcel_data c s) = 0%nat)); [contradiction|].
  unfold legacy_optional_keys in Hk.
  apply elem_of_cons in Hk as [->|Hk];
    [|apply elem_of_cons in Hk as [->|Hk]; [|apply elem_of_nil in Hk; contradiction]].
  - rewrite copy_if_present_lookup_ne by discriminate.
    unfold Legacy.copy_if_present at 1, Legacy.get_or_none.
    destruct (decide (is_Some (Legacy.parcel_data c s !! "location"))) as [[v Hv]|Hn].
    + rewrite lookup_insert_eq, Hv. reflexivity.
    + apply eq_None_not_Some in Hn. rewrite Hn. simplify_map_eq. reflexivity.
  - unfold Legacy.copy_if_present at 1, Legacy.get_or_none.
    destruct (decide (is_Some (Legacy.parcel_data c s !! "tracking_history")))
      as [[v Hv]|Hn].
    + rewrite lookup_insert_eq, Hv. reflexivity.
    + apply eq_None_not_Some in Hn. rewrite Hn.
      rewrite copy_if_present_lookup_ne by discriminate.
      simplify_map_eq. reflexivity.
Qed.

Lemma legacy_other_lookup (c : Legacy.coordinator) (s : Legacy.ParcelSensor) k :
  k ∉ legacy_attribute_keys → k ∉ legacy_optional_keys →
  Legacy.extra_state_attributes c s !! k = None.
Proof.
  intros H1 H2. unfold Legacy.extra_state_attributes.
  destruct (decide (size (Legacy.parcel_data c s) = 0%nat));
    [apply lookup_empty|].
  unfold legacy_attribute_keys in H1. unfold legacy_optional_keys in H2.
  repeat (apply not_elem_of_cons in H1 as [? H1]).
  repeat (apply not_elem_of_cons in H2 as [? H2]).
  rewrite !copy_if_present_lookup_ne by congruence.
  rewrite !lookup_insert_ne by congruence. apply lookup_empty.
Qed.

(** X11: the attributes of a legacy sensor that shows a shipment.  The six
    fields carrier, tracking_number, status, status_description,
    estimated_delivery and last_update are always there, with the
    shipment's value or [None]; location and tracking_history are there
    exactly when the shipment has them; and no other field of the shipment
    is ever shown.  Every attribute is the shipment's own value. *)
Theorem legacy_attributes_domain
  (c : Legacy.coordinator) (s : Legacy.ParcelSensor) :
  size (Legacy.parcel_data c s) ≠ 0%nat →
  (∀ k, is_Some (Legacy.extra_state_attributes c s !! k)
        ↔ k ∈ legacy_attribute_keys
          ∨ (k ∈ legacy_optional_keys ∧ is_Some (Legacy.parcel_data c s !! k)))
  ∧ (∀ k v, Legacy.extra_state_attributes c s !! k = Some v →
       v = default VNone (Legacy.parcel_data c s !! k)).
Proof.
  intros Hsize.
  assert (Hcases : ∀ k,
            (k ∈ legacy_attribute_keys
             ∧ Legacy.extra_state_attributes c s !! k
               = Some (default VNone (Legacy.parcel_data c s !! k)))
            ∨ ((k ∉ legacy_attribute_keys) ∧ k ∈ legacy_optional_keys
               ∧ Legacy.extra_state_attributes c s !! k
                 = Legacy.parcel_data c s !! k)
            ∨ ((k ∉ legacy_attribute_keys) ∧ (k ∉ legacy_optional_keys)
               ∧ Legacy.extra_state_attributes c s !! k = None)).
  { intros k. destruct (decide (k ∈ legacy_attribute_keys)) as [H1|H1].
    - left. split; [exact H1|]. apply legacy_attribute_lookup; assumption.
    - right. destruct (decide (k ∈ legacy_optional_keys)) as [H2|H2].
      + left. split; [exact H1|]. split; [exact H2|].
        apply legacy_optional_lookup; assumption.
      + right. split; [exact H1|]. split; [exact H2|].
        apply legacy_other_lookup; assumption. }
  split.
  - intros k. destruct (Hcases k) as [[H1 E]|[(H1 & H2 & E)|(H1 & H2 & E)]];
      rewrite E.
    + split; [intros _; left; exact H1|intros _; eexists; reflexivity].
    + split; [intros H; right; split; assumption|].
      intros [H|[_ H]]; [contradiction|exact H].
    + split; [intros [v Hv]; discriminate|].
      intros [H|[H _]]; contradiction.
  - intros k v. destruct (Hcases k) as [[H1 E]|[(H1 & H2 & E)|(H1 & H2 & E)]];
      rewrite E.
    + intros [= <-]. reflexivity.
    + intros H. rewrite H. reflexivity.
    + discriminate.
Qed.

Lemma legacy_attributes_domain_witness :
  ∃ c s,
    size (Legacy.parcel_data c s) ≠ 0%nat
    ∧ is_Some (Legacy.extra_state_attributes c s !! "status_description")
    ∧ ¬ is_Some (Legacy.extra_state_attributes c s !! "id")
    ∧ ¬ is_Some (Legacy.extra_state_attributes c s !! "location").
Proof.
  exists {| Legacy.data := {[ "7" := {[ "id" := VInt 7 ]} ]};
            Legacy.last_call := None |},
         {| Legacy.parcel_id := "7"; Legacy._name := ""; Legacy._unique_id := "" |}.
  assert (Hsize : size (Legacy.parcel_data
                          {| Legacy.data := {[ "7" := {[ "id" := VInt 7 ]} ]};
                             Legacy.last_call := None |}
                          {| Legacy.parcel_id := "7"; Legacy._name := "";
                             Legacy._unique_id := "" |}) ≠ 0%nat)
    by (vm_compute; discriminate).
  split; [exact Hsize|].
  pose proof (proj1 (legacy_attributes_domain _ _ Hsize)) as H.
  split; [|split].
  - apply H. left. unfold legacy_attribute_keys.
    apply list_elem_of_In. simpl. tauto.
  - intros Hs. apply H in Hs as [Hs|[Hs _]];
      apply list_elem_of_In in Hs; simpl in Hs;
      repeat (destruct Hs as [Hs|Hs]; [discriminate|]); exact Hs.
  - intros Hs. apply H in Hs as [Hs|[_ [v Hv]]].
    + apply list_elem_of_In in Hs; simpl in Hs;
        repeat (destruct Hs as [Hs|Hs]; [discriminate|]); exact Hs.
    + vm_compute in Hv. discriminate.
Defined.

(** * The component's sensor *)

Lemma update_attributes_inv (c : Component.coordinator)
  (s s' : Component.ParcelDeliverySensor) :
  Component.update_attributes c s = Ok s' →
  ∃ m : record,
    Component.current_shipment c (Component.idx s) = Ok (VDict m) ∧ typed_fields m.
Proof.
  unfold Component.update_attributes.
  destruct (Component.current_shipment c (Component.idx s)) as [sh|e]; simpl;
    [|discriminate].
  destruct sh as [| | | | |m]; simpl; try discriminate.
  intros H. exists m. split; [reflexivity|]. split.
  - intros v Hv. rewrite Hv in H. simpl in H.
    destruct v as [| | | | |d]; simpl in H; try discriminate.
    exists d. reflexivity.
  - intros v Hv. rewrite Hv in H. simpl in H.
    destruct (default (VDict ∅) (m !! "carrier")); simpl in H; try discriminate.
    destruct v as [| | |st| |]; simpl in H; try discriminate.
    exists st. reflexivity.
Qed.

Lemma attributes_of_dom (m : record) :
  dom (attributes_of m) = component_attribute_keys.
Proof.
  unfold attributes_of, component_attribute_keys.
  rewrite dom_list_to_map_L. simpl. set_solver.
Qed.

Lemma attributes_of_colour (m : record) :
  typed_fields m →
  ∃ st, default (VStr "unknown") (m !! "status") = VStr st
        ∧ attributes_of m !! "status_color"
          = Some (VStr (Component.status_color st)).
Proof.
  intros [_ Hst]. unfold attributes_of, status_string.
  rewrite list_to_map_cons, lookup_insert_eq.
  destruct (m !! "status") as [v|] eqn:E.
  - destruct (Hst v eq_refl) as [st ->]. exists st. split; reflexivity.
  - exists "unknown". split; reflexivity.
Qed.

(** X12: [update_attributes] returns exactly when the shipment it reads (the
    one at the entity's position, or the empty dict beyond the end) is a dict
    whose carrier, if any, is a dict and whose status, if any, is a string.
    When it returns, the attributes have exactly the ten keys, the state is a
    string, the colour is the colour of that state, and the entity keeps its
    position, unique id and name. *)
Theorem update_attributes_returns_iff
  (c : Component.coordinator) (s : Component.ParcelDeliverySensor) :
  ((∃ s', Component.update_attributes c s = Ok s')
   ↔ ∃ m : record,
       Component.current_shipment c (Component.idx s) = Ok (VDict m)
       ∧ typed_fields m)
  ∧ (∀ s', Component.update_attributes c s = Ok s' →
       dom (Component.extra_state_attributes s') = component_attribute_keys
       ∧ (∃ st, Component.native_value s' = VStr st
                ∧ Component.extra_state_attributes s' !! "status_color"
                  = Some (VStr (Component.status_color st)))
       ∧ Component.idx s' = Component.idx s
       ∧ Component.unique_id s' = Component.unique_id s
       ∧ Component.name s' = Component.name s).
Proof.
  split.
  - split.
    + intros [s' H]. exact (update_attributes_inv c s s' H).
    + intros (m & Hc & Hty). eexists.
      exact (update_attributes_typed c s m Hc Hty).
  - intros s' H.
    destruct (update_attributes_inv c s s' H) as (m & Hc & Hty).
    rewrite (update_attributes_typed c s m Hc Hty) in H. injection H as <-.
    split; [apply attributes_of_dom|].
    split; [exact (attributes_of_colour m Hty)|].
    repeat split; reflexivity.
Qed.

(** X13: an update of an entity whose position is beyond the end of the
    dataset the refresh leaves (a list) changes nothing in the entity: it
    keeps the state and the attributes it had, and it reports unavailable. *)
Theorem component_update_out_of_range
  (c : Component.coordinator) (x : exchange)
  (s : Component.ParcelDeliverySensor) (l : list value) :
  Component.data (Component.async_refresh c x) = VList l →
  (length l ≤ Component.idx s)%nat →
  Component.async_update c x s = Ok (Component.async_refresh c x, s)
  ∧ Component.available (Component.async_refresh c x) s = Ok false.
Proof.
  intros Hd Hlen.
  unfold Component.async_update, Component.async_request_refresh,
    Component.available.
  rewrite Hd. simpl.
  destruct (decide (Component.idx s < length l)%nat); [lia|].
  split; [reflexivity|].
  destruct (Component.last_update_success (Component.async_refresh c x));
    [|reflexivity].
  simpl. rewrite bool_decide_eq_false_2 by lia. reflexivity.
Qed.

Lemma component_update_out_of_range_witness :
  ∃ p e,
    Component.async_setup_entry repr_unused fresh_coordinator
      (shipments_response [shoes; books]) = Ok p
    ∧ Component.entities p !! 1%nat = Some e
    ∧ Component.data (Component.async_refresh (Component.coord p)
                        (shipments_response [lamp])) = VList [lamp]
    ∧ (length [lamp] ≤ Component.idx e)%nat
    ∧ Component.async_update (Component.coord p) (shipments_response [lamp]) e
      = Ok (Component.async_refresh (Component.coord p)
              (shipments_response [lamp]), e)
    ∧ Component.native_value e = VStr "in_transit".
Proof.
  eexists _, _.
  split; [vm_compute; reflexivity|].
  split; [reflexivity|].
  split; [vm_compute; reflexivity|].
  split; [simpl; lia|].
  split; [|reflexivity].
  eapply (component_update_out_of_range _ (shipments_response [lamp]) _ [lamp]).
  - vm_compute. reflexivity.
  - simpl. lia.
Defined.

(** * The component's setup *)

Lemma sensors_from_typed repr (c : Component.coordinator) (items : list value) :
  Component.data c = VList items →
  ∀ suffix i, drop i items = suffix → Forall typed_shipment suffix →
  ∃ es, Component.sensors_from repr c i suffix = Ok es
        ∧ length es = length suffix
        ∧ ∀ j e, es !! j = Some e →
            ∃ m : record,
              items !! (i + j)%nat = Some (VDict m)
              ∧ Component.idx e = (i + j)%nat
              ∧ Component.shipment e = VDict m
              ∧ Component.native_value e = default (VStr "unknown") (m !! "status")
              ∧ Component.extra_state_attributes e = attributes_of m
              ∧ Component.unique_id e
                = "parcel_delivery_"
                  +:+ py_str repr (default (VInt (Z.of_nat (i + j))) (m !! "id")).
Proof.
  intros Hd suffix. induction suffix as [|v suffix IH]; intros i Hdrop Hty.
  - exists []. split; [reflexivity|]. split; [reflexivity|].
    intros j e H. rewrite lookup_nil in H. discriminate.
  - apply Forall_cons in Hty as [(m & -> & Hm) Hty].
    assert (Hi : items !! i = Some (VDict m)).
    { rewrite <- (Nat.add_0_r i), <- lookup_drop, Hdrop. reflexivity. }
    assert (Hdrop' : drop (S i) items = suffix).
    { replace (S i) with (i + 1)%nat by lia.
      rewrite <- drop_drop, Hdrop. reflexivity. }
    destruct (IH (S i) Hdrop' Hty) as (es & Hes & Hlen & Hall).
    simpl. unfold Component.new_sensor. simpl.
    rewrite update_attributes_typed with (m := m);
      [|exact (current_shipment_in_range c items i _ Hd Hi)|exact Hm].
    simpl. rewrite Hes. simpl. eexists. split; [reflexivity|].
    split; [simpl; rewrite Hlen; reflexivity|].
    intros [|j] e He; simpl in He.
    + injection He as <-. exists m. rewrite Nat.add_0_r.
      split; [exact Hi|]. repeat split; reflexivity.
    + destruct (Hall j e He) as (m' & H). exists m'.
      replace (i + S j)%nat with (S i + j)%nat by lia. exact H.
Qed.

(** X14: set up on a successful fetch of a list of shipments the component
    can read, the platform has one entity per shipment, in the order of the
    list: the entity at position [i] has index [i], was made from the
    shipment at [i], shows its status (or "unknown") and its attributes, has
    the unique id [parcel_delivery_] followed by the shipment's id (or by
    [i] when it has none), and is available.  The setup from a config entry
    and the setup from discovery give the same platform. *)
Theorem component_setup_one_entity_per_shipment
  (repr : value → string) (c0 : Component.coordinator) (x : exchange)
  (items : list value) :
  successful_fetch x items →
  items ≠ [] →
  Forall typed_shipment items →
  ∃ p, Component.async_setup_entry repr c0 x = Ok p
    ∧ Component.async_setup_platform repr c0 x = Ok p
    ∧ Component.coord p
      = {| Component.data := VList items; Component.last_update_success := true |}
    ∧ length (Component.entities p) = length items
    ∧ ∀ i e, Component.entities p !! i = Some e →
        ∃ m : record,
          items !! i = Some (VDict m)
          ∧ Component.idx e = i
          ∧ Component.shipment e = VDict m
          ∧ Component.native_value e = default (VStr "unknown") (m !! "status")
          ∧ Component.extra_state_attributes e = attributes_of m
          ∧ Component.unique_id e
            = "parcel_delivery_"
              +:+ py_str repr (default (VInt (Z.of_nat i)) (m !! "id"))
          ∧ Component.available (Component.coord p) e = Ok true.
Proof.
  intros Hx Hne Hty.
  unfold Component.async_setup_entry, Component.async_setup_platform.
  rewrite (component_refresh_success x items c0 Hx). simpl.
  destruct (sensors_from_typed repr
              {| Component.data := VList items;
                 Component.last_update_success := true |}
              items eq_refl items 0 eq_refl Hty) as (es & Hes & Hlen & Hall).
  rewrite Hes. simpl.
  assert (Hnot : bool_decide (length items = 0%nat) = false).
  { apply bool_decide_eq_false_2. destruct items; [contradiction|discriminate]. }
  rewrite Hnot. eexists. split; [reflexivity|]. split; [reflexivity|].
  split; [reflexivity|]. split; [exact Hlen|].
  intros i e He. simpl in He.
  destruct (Hall i e He) as (m & Hi & Hidx & Hsh & Hn & Ha & Hu).
  exists m. simpl in *. repeat (split; [assumption|]).
  unfold Component.available. simpl.
  rewrite bool_decide_eq_true_2; [reflexivity|].
  rewrite Hidx. apply lookup_lt_Some in Hi. exact Hi.
Qed.

Lemma component_setup_one_entity_per_shipment_witness :
  successful_fetch (shipments_response [shoes; books]) [shoes; books]
  ∧ [shoes; books] ≠ []
  ∧ Forall typed_shipment [shoes; books]
  ∧ ∃ p, Component.async_setup_entry repr_unused fresh_coordinator
           (shipments_response [shoes; books]) = Ok p
         ∧ length (Component.entities p) = 2%nat.
Proof.
  pose proof (shipments_response_successful [shoes; books]) as H1.
  assert (H2 : [shoes; books] ≠ []) by discriminate.
  assert (H3 : Forall typed_shipment [shoes; books]).
  { repeat constructor; (eexists; split; [reflexivity|]);
      (split; intros v Hv; vm_compute in Hv;
       [discriminate|injection Hv as <-; eexists; reflexivity]). }
  split; [exact H1|]. split; [exact H2|]. split; [exact H3|].
  destruct (component_setup_one_entity_per_shipment repr_unused fresh_coordinator
              (shipments_response [shoes; books]) [shoes; books] H1 H2 H3)
    as (p & Hp & _ & _ & Hlen & _).
  exists p. split; [exact Hp|exact Hlen].
Defined.

(** X15: a setup whose first fetch fails.  From a config entry the platform
    is set up without entities whenever the coordinator holds nothing to
    show ([None] or an empty list); from discovery the setup raises
    [TypeError] when the coordinator holds [None], for want of a list to
    enumerate.  In both the coordinator is marked failed and keeps what it
    held. *)
Theorem component_setup_after_failed_fetch
  (repr : value → string) (c0 : Component.coordinator) (x : exchange) :
  fetch_failure x →
  (Component.py_not (Component.data c0) = true →
   Component.async_setup_entry repr c0 x
   = Ok {| Component.coord :=
             {| Component.data := Component.data c0;
                Component.last_update_success := false |};
           Component.entities := [] |})
  ∧ (Component.data c0 = VNone →
     Component.async_setup_platform repr c0 x = Raise TypeError)
  ∧ (Component.data c0 = VList [] →
     Component.async_setup_platform repr c0 x
     = Ok {| Component.coord :=
               {| Component.data := VList [];
                  Component.last_update_success := false |};
             Component.entities := [] |}).
Proof.
  intros Hf.
  assert (Hr : Component.async_refresh c0 x
               = {| Component.data := Component.data c0;
                    Component.last_update_success := false |}).
  { unfold Component.async_refresh, Component._async_update_data.
    rewrite (get_shipments_failure x Hf). reflexivity. }
  unfold Component.async_setup_entry, Component.async_setup_platform.
  rewrite Hr. simpl. split; [|split].
  - intros Hn. rewrite Hn. reflexivity.
  - intros ->. reflexivity.
  - intros ->. reflexivity.
Qed.

Lemma component_setup_after_failed_fetch_witness :
  fetch_failure (Response 401 (Ok VNone))
  ∧ Component.async_setup_entry repr_unused fresh_coordinator
      (Response 401 (Ok VNone))
    = Ok {| Component.coord :=
              {| Component.data := VNone;
                 Component.last_update_success := false |};
            Component.entities := [] |}
  ∧ Component.async_setup_platform repr_unused fresh_coordinator
      (Response 401 (Ok VNone)) = Raise TypeError.
Proof.
  assert (H : fetch_failure (Response 401 (Ok VNone))) by (simpl; lia).
  split; [exact H|].
  destruct (component_setup_after_failed_fetch repr_unused fresh_coordinator
              (Response 401 (Ok VNone)) H) as (H1 & H2 & _).
  split; [exact (H1 eq_refl)|exact (H2 eq_refl)].
Defined.

Lemma parcel_delivery_prefix_inj :
  Inj (=) (=) (λ i : string, "parcel_delivery_" +:+ i).
Proof. intros a b H. cbv in H. congruence. Qed.

(** X16: the unique ids the component's setup gives are [parcel_delivery_]
    followed by what each shipment prints for its id, its position standing
    in for a missing id; they are pairwise distinct exactly when these
    printed ids are. *)
Theorem component_unique_ids
  (repr : value → string) (c0 : Component.coordinator) (x : exchange)
  (items : list value) :
  successful_fetch x items →
  items ≠ [] →
  Forall typed_shipment items →
  ∃ p, Component.async_setup_entry repr c0 x = Ok p
    ∧ Component.unique_id <$> Component.entities p
      = (λ i : string, "parcel_delivery_" +:+ i) <$> printed_ids repr items
    ∧ (NoDup (Component.unique_id <$> Component.entities p)
       ↔ NoDup (printed_ids repr items)).
Proof.
  intros Hx Hne Hty.
  unfold Component.async_setup_entry.
  rewrite (component_refresh_success x items c0 Hx). simpl.
  destruct (sensors_from_typed repr
              {| Component.data := VList items;
                 Component.last_update_success := true |}
              items eq_refl items 0 eq_refl Hty) as (es & Hes & Hlen & Hall).
  rewrite Hes. simpl.
  assert (Hnot : bool_decide (length items = 0%nat) = false).
  { apply bool_decide_eq_false_2. destruct items; [contradiction|discriminate]. }
  rewrite Hnot. eexists. split; [reflexivity|]. simpl.
  assert (Heq : Component.unique_id <$> es
                = (λ i : string, "parcel_delivery_" +:+ i) <$> printed_ids repr items).
  { apply list_eq. intros i. unfold printed_ids.
    rewrite !list_lookup_fmap, list_lookup_imap.
    destruct (es !! i) as [e|] eqn:E.
    - destruct (Hall i e E) as (m & Hi & _ & _ & _ & _ & Hu).
      simpl in Hi. rewrite Hi. simpl. rewrite Hu. reflexivity.
    - apply lookup_ge_None in E. rewrite Hlen in E.
      apply lookup_ge_None in E. rewrite E. reflexivity. }
  split; [exact Heq|].
  rewrite Heq. apply (NoDup_fmap _).
Qed.

Lemma component_unique_ids_witness :
  successful_fetch (shipments_response [shoes; VDict ∅]) [shoes; VDict ∅]
  ∧ [shoes; VDict ∅] ≠ []
  ∧ Forall typed_shipment [shoes; VDict ∅]
  ∧ ∃ p, Component.async_setup_entry repr_unused fresh_coordinator
           (shipments_response [shoes; VDict ∅]) = Ok p
         ∧ Component.unique_id <$> Component.entities p
           = ["parcel_delivery_1"; "parcel_delivery_1"]
         ∧ ¬ NoDup (Component.unique_id <$> Component.entities p).
Proof.
  pose proof (shipments_response_successful [shoes; VDict ∅]) as H1.
  assert (H2 : [shoes; VDict ∅] ≠ []) by discriminate.
  assert (H3 : Forall typed_shipment [shoes; VDict ∅]).
  { repeat constructor; (eexists; split; [reflexivity|]);
      (split; intros v Hv; vm_compute in Hv;
       [discriminate|try discriminate; injection Hv as <-; eexists; reflexivity]). }
  split; [exact H1|]. split; [exact H2|]. split; [exact H3|].
  destruct (component_unique_ids repr_unused fresh_coordinator
              (shipments_response [shoes; VDict ∅]) [shoes; VDict ∅] H1 H2 H3)
    as (p & Hp & Hu & Hnd).
  exists p. split; [exact Hp|]. split; [rewrite Hu; vm_compute; reflexivity|].
  rewrite Hnd. vm_compute. intros H.
  apply NoDup_cons in H as [H _]. apply H, list_elem_of_In. simpl. tauto.
Defined.

(** * The integration's clients *)

(** X17: the clients the integration keeps.  Setting up an entry that holds
    a key stores a client with that key under the entry's id, where the
    sensor platform then finds it, and leaves the clients of other entries
    as they are.  An unload the host granted removes exactly this client; a
    second such unload, or the platform's lookup after it, raises
    [KeyError]; an unload the host refused removes nothing. *)
Theorem integration_client_store
  (h : Integration.hass_data) (entry : Integration.ConfigEntry) (k : value) :
  Integration.entry_data entry !! "api_key" = Some k →
  ∃ h', Integration.async_setup_entry h entry = Ok h'
    ∧ Integration.platform_client h' entry = Ok {| Integration.api_key := k |}
    ∧ (∀ other, Integration.entry_id other ≠ Integration.entry_id entry →
         Integration.platform_client h' other = Integration.platform_client h other)
    ∧ Integration.async_unload_entry h' entry false = Ok (h', false)
    ∧ Integration.async_unload_entry h' entry true
      = Ok (Some (delete (Integration.entry_id entry) (default ∅ h)), true)
    ∧ Integration.async_unload_entry
        (Some (delete (Integration.entry_id entry) (default ∅ h))) entry true
      = Raise KeyError
    ∧ Integration.platform_client
        (Some (delete (Integration.entry_id entry) (default ∅ h))) entry
      = Raise KeyError
    ∧ (∀ other, Integration.entry_id other ≠ Integration.entry_id entry →
         Integration.platform_client
           (Some (delete (Integration.entry_id entry) (default ∅ h))) other
         = Integration.platform_client h other).
Proof.
  intros Hk. unfold Integration.async_setup_entry, ConfigFlow.CONF_API_KEY.
  rewrite Hk. eexists. split; [reflexivity|].
  unfold Integration.platform_client, Integration.async_unload_entry.
  rewrite !lookup_insert_eq, !lookup_delete_eq, delete_insert_eq.
  repeat split.
  - intros other Hne. rewrite lookup_insert_ne by congruence.
    destruct h as [d|]; [reflexivity|]. simpl. rewrite lookup_empty. reflexivity.
  - intros other Hne. rewrite lookup_delete_ne by congruence.
    destruct h as [d|]; [reflexivity|]. simpl. rewrite lookup_empty. reflexivity.
Qed.

Lemma integration_client_store_witness :
  Integration.entry_data
    {| Integration.entry_id := "e1";
       Integration.entry_data := {[ "api_key" := VStr "secret" ]} |}
    !! "api_key" = Some (VStr "secret")
  ∧ ∃ h', Integration.async_setup_entry None
            {| Integration.entry_id := "e1";
               Integration.entry_data := {[ "api_key" := VStr "secret" ]} |}
          = Ok h'
      ∧ Integration.platform_client h'
          {| Integration.entry_id := "e1";
             Integration.entry_data := {[ "api_key" := VStr "secret" ]} |}
        = Ok {| Integration.api_key := VStr "secret" |}.
Proof.
  assert (H : Integration.entry_data
                {| Integration.entry_id := "e1";
                   Integration.entry_data := {[ "api_key" := VStr "secret" ]} |}
                !! "api_key" = Some (VStr "secret"))
    by (simpl; apply lookup_singleton_eq).
  split; [exact H|].
  destruct (integration_client_store None _ _ H) as (h' & H1 & H2 & _).
  exists h'. split; [exact H1|exact H2].
Defined.

(** X18: an update whose fetch fails reads the dataset the coordinator kept.
    The entity shows the shipment that is still at its position, with the
    same state and attributes an update after a successful fetch of that
    list would give, and it reports unavailable. *)
Theorem component_update_after_failed_fetch
  (c : Component.coordinator) (x : exchange)
  (s : Component.ParcelDeliverySensor) (l : list value) (m : record) :
  fetch_failure x →
  Component.data c = VList l →
  l !! Component.idx s = Some (VDict m) →
  typed_fields m →
  ∃ s', Component.async_update c x s
        = Ok ({| Component.data := VList l;
                 Component.last_update_success := false |}, s')
        ∧ Component.shipment s' = VDict m
        ∧ Component.native_value s' = default (VStr "unknown") (m !! "status")
        ∧ Component.extra_state_attributes s' = attributes_of m
        ∧ Component.available
            {| Component.data := VList l;
               Component.last_update_success := false |} s' = Ok false.
Proof.
  intros Hf Hd Hi Hty.
  unfold Component.async_update, Component.async_request_refresh,
    Component.async_refresh, Component._async_update_data.
  rewrite (get_shipments_failure x Hf), Hd. simpl.
  pose proof (lookup_lt_Some _ _ _ Hi) as Hlt.
  destruct (decide (Component.idx s < length l)%nat); [|lia].
  rewrite Hi. simpl.
  rewrite update_attributes_typed with (m := m); [| |exact Hty].
  - simpl. eexists. split; [reflexivity|]. repeat split; reflexivity.
  - apply current_shipment_in_range with (l := l); [reflexivity|exact Hi].
Qed.

Lemma component_update_after_failed_fetch_witness :
  ∃ p e s',
    Component.async_setup_entry repr_unused fresh_coordinator
      (shipments_response [shoes; books]) = Ok p
    ∧ Component.entities p !! 0%nat = Some e
    ∧ fetch_failure (Failed ConnectionFailed)
    ∧ Component.async_update (Component.coord p) (Failed ConnectionFailed) e
      = Ok ({| Component.data := VList [shoes; books];
               Component.last_update_success := false |}, s')
    ∧ Component.native_value s' = VStr "delivered".
Proof.
  eexists _, _.
  assert (Hty : typed_fields
                  (list_to_map [("id", VInt 1); ("name", VStr "Shoes");
                                ("status", VStr "delivered")])).
  { split; intros v Hv; vm_compute in Hv;
      [discriminate|injection Hv as <-; eexists; reflexivity]. }
  destruct (component_update_after_failed_fetch
              {| Component.data := VList [shoes; books];
                 Component.last_update_success := true |}
              (Failed ConnectionFailed)
              {| Component.idx := 0;
                 Component.shipment := shoes;
                 Component._attr_unique_id := "parcel_delivery_1";
                 Component._attr_name := "Parcel Delivery Shoes";
                 Component._attr_icon := "mdi:package-variant";
                 Component._attr_native_value := VStr "delivered";
                 Component._attr_extra_state_attributes :=
                   attributes_of
                     (list_to_map [("id", VInt 1); ("name", VStr "Shoes");
                                   ("status", VStr "delivered")]) |}
              [shoes; books] _ I eq_refl eq_refl Hty)
    as (s' & H1 & _ & H3 & _).
  exists s'.
  split; [vm_compute; reflexivity|].
  split; [reflexivity|].
  split; [exact I|].
  split; [|rewrite H3; vm_compute; reflexivity].
  etransitivity; [|exact H1]. vm_compute. reflexivity.
Defined.
